(** * send_in_chunks.py: a shallow embedding and its verified properties

    The script reads a line-oriented file, groups the lines into chunks of
    [--chunk-size] lines, optionally drops the trailing token of each line,
    and posts every chunk to a QuestDB or InfluxDB write endpoint through a
    [multiprocessing.Pool].

    Modelling choices.
    - A Python [str] is a [string]; a character is an [ascii].
    - A Python [int] is a [Z]; [len] returns a [Z].
    - [time.time()] readings are integer clock ticks; no property below
      depends on rounding.
    - An exception is a value of [exn]; a computation that may raise
      returns a [result].
    - A process runs in a [World] (clock, file system, network, console);
      effectful code is a function [World -> result A * World].
    - [pool.map] is taken as documented: every task runs to completion in
      a worker, the call blocks until all are done, and the results come
      back in submission order. Each task runs in a world of its own, so
      the network may treat every request differently; the order in which
      workers interleave is not modelled. *)

From Stdlib Require Import ZArith List Lia Bool Arith Permutation.
From Stdlib Require Import Strings.Ascii Strings.String.
Import ListNotations.

Open Scope Z_scope.
Open Scope list_scope.
Open Scope string_scope.

(** ** Python string built-ins *)

Module Str.

Definition LF : ascii := "010"%char.
Definition TAB : ascii := "009"%char.
Definition SPACE : ascii := " "%char.
Definition SLASH : ascii := "/"%char.

(** The one-character string, as in the literals ["\n"], [' '], ['/']. *)
Definition chr (c : ascii) : string := String c EmptyString.

(** [s.rstrip(c)] for a single character [c]: every trailing occurrence
    of [c] is removed. *)
Fixpoint rstrip (c : ascii) (s : string) : string :=
  match s with
  | EmptyString => EmptyString
  | String a r =>
      match rstrip c r with
      | EmptyString => if Ascii.eqb a c then EmptyString else chr a
      | r' => String a r'
      end
  end.

(** [s.rsplit(sep, 1)] for a single character [sep]: at most one split,
    at the last occurrence of [sep]; a list of one or two strings. *)
Fixpoint rsplit1 (sep : ascii) (s : string) : list string :=
  match s with
  | EmptyString => [EmptyString]
  | String a r =>
      match rsplit1 sep r with
      | [h; t] => [String a h; t]
      | _ => if Ascii.eqb a sep then [EmptyString; r] else [s]
      end
  end.

(** [sep.join(ls)]. *)
Fixpoint join (sep : string) (ls : list string) : string :=
  match ls with
  | [] => EmptyString
  | [x] => x
  | x :: xs => x ++ sep ++ join sep xs
  end.

(** [c in s]. *)
Fixpoint contains (c : ascii) (s : string) : bool :=
  match s with
  | EmptyString => false
  | String a r => Ascii.eqb a c || contains c r
  end.

(** [s.endswith(c)]. *)
Fixpoint endswith (c : ascii) (s : string) : bool :=
  match s with
  | EmptyString => false
  | String a EmptyString => Ascii.eqb a c
  | String _ r => endswith c r
  end.

(** [c * k]. *)
Fixpoint replicate (k : nat) (c : ascii) : string :=
  match k with
  | O => EmptyString
  | S k' => String c (replicate k' c)
  end.

(** [str.isspace] on one character of the ASCII range: space, the
    controls 9..13 and the separators 28..31. *)
Definition isspace (c : ascii) : bool :=
  let n := nat_of_ascii c in
  (Nat.eqb n 32 || (Nat.leb 9 n && Nat.leb n 13)
   || (Nat.leb 28 n && Nat.leb n 31))%bool.

Fixpoint has_space (s : string) : bool :=
  match s with
  | EmptyString => false
  | String a r => isspace a || has_space r
  end.

End Str.

Import Str.

(** ** Exceptions and effects *)

Inductive exn : Type :=
| ValueError (msg : string)
| OSError (msg : string)
| RequestException (msg : string)
| SystemExit (code : Z).

(** [isinstance(e, Exception)]: [SystemExit] derives from [BaseException]
    only, so an [except Exception] clause lets it through. *)
Definition is_Exception (e : exn) : bool :=
  match e with
  | SystemExit _ => false
  | _ => true
  end.

Inductive result (A : Type) : Type :=
| Ok (a : A)
| Raise (e : exn).

Arguments Ok {A} a.
Arguments Raise {A} e.

(** What [requests.post] hands back. *)
Record response : Type := Response {
  status_code : Z;
  ok : bool;
  text : string
}.

(** How one call of [requests.post] ends: with a response, or with a
    transport exception (connection refused, timeout, ...). *)
Inductive answer : Type :=
| Responded (r : response)
| Failed (msg : string).

(** What the network does with one request: how long the call takes and
    how it ends. *)
Record reply : Type := Reply {
  latency : Z;
  outcome : answer
}.

(** Lines written to the console, kept structured. *)
Inductive message : Type :=
| MsgUsage (backend : string)
| MsgDividing
| MsgSent (lines : Z) (status : Z) (elapsed : Z)
| MsgError (body : string)
| MsgException (e : exn) (elapsed : Z)
| MsgReadError (e : exn)
| MsgTotalRows (rows : Z)
| MsgTotalRequestTime (t : Z)
| MsgWallTime (t : Z).

Inductive event : Type :=
| Post (url data : string)
| Stdout (m : message)
| Stderr (m : message).

(** The surroundings of one process. [files] maps a path to the lines the
    file iterator yields ([None]: the file cannot be opened); [wire] is the
    behaviour of the network towards this process; [log] records what the
    process did, oldest first. *)
Record World : Type := mkWorld {
  now : Z;
  files : string -> option (list string);
  wire : string -> string -> reply;
  log : list event
}.

Definition Proc (A : Type) : Type := World -> result A * World.

Definition ret {A} (a : A) : Proc A := fun w => (Ok a, w).

Definition raise {A} (e : exn) : Proc A := fun w => (Raise e, w).

Definition bind {A B} (m : Proc A) (k : A -> Proc B) : Proc B :=
  fun w =>
    match m w with
    | (Ok a, w') => k a w'
    | (Raise e, w') => (Raise e, w')
    end.

Declare Scope proc_scope.
Delimit Scope proc_scope with proc.
Bind Scope proc_scope with Proc.

Notation "x <- m ;; k" := (bind m (fun x => k))
  (at level 61, m at next level, right associativity) : proc_scope.
Notation "m ;; k" := (bind m (fun _ => k))
  (at level 61, right associativity) : proc_scope.

Open Scope proc_scope.

(** A pure computation that may raise, run inside a process. *)
Definition lift {A} (r : result A) : Proc A := fun w => (r, w).

(** [try: body / except Exception as e: handler(e)]. *)
Definition try_except {A} (body : Proc A) (handler : exn -> Proc A) : Proc A :=
  fun w =>
    match body w with
    | (Ok a, w') => (Ok a, w')
    | (Raise e, w') =>
        if is_Exception e then handler e w' else (Raise e, w')
    end.

Definition emit (ev : event) : Proc unit :=
  fun w => (Ok tt, mkWorld (now w) (files w) (wire w) (log w ++ [ev])).

Definition print (m : message) : Proc unit := emit (Stdout m).

Definition print_stderr (m : message) : Proc unit := emit (Stderr m).

Definition time_time : Proc Z := fun w => (Ok (now w), w).

(** [requests.post(url, data=data)]: the request goes out, the clock
    advances by the latency of the call, and the call returns a response
    or raises [RequestException]. *)
Definition requests_post (url data : string) : Proc response :=
  fun w =>
    let r := wire w url data in
    (match outcome r with
     | Responded resp => Ok resp
     | Failed msg => Raise (RequestException msg)
     end,
     mkWorld (now w + latency r) (files w) (wire w) (log w ++ [Post url data])).

(** [open(path)] followed by iteration over the file. *)
Definition open_lines (path : string) : Proc (list string) :=
  fun w =>
    match files w path with
    | Some ls => (Ok ls, w)
    | None => (Raise (OSError path), w)
    end.

Definition sys_exit {A} (code : Z) : Proc A := raise (SystemExit code).

Definition len {A} (l : list A) : Z := Z.of_nat (List.length l).

(** ** [get_endpoint] *)

Definition get_endpoint (host backend : string) : result string :=
  let host := rstrip SLASH host in
  if (backend =? "questdb")%string then
    Ok (host ++ "/write")
  else if (backend =? "influxdb")%string then
    Ok (host ++ "/api/v3/write_lp?db=sensors&precision=auto")
  else
    Raise (ValueError ("Unsupported backend: " ++ backend)).

(** ** [send_chunk] *)

(** The request body: ["\n".join(chunk_lines) + "\n"]. *)
Definition body (chunk_lines : list string) : string :=
  join (chr LF) chunk_lines ++ chr LF.

Definition send_chunk (chunk_lines : list string) (host backend : string)
  : Proc (Z * Z) :=
  url <- lift (get_endpoint host backend) ;;
  let data := body chunk_lines in
  start_time <- time_time ;;
  try_except
    (response <- requests_post url data ;;
     t <- time_time ;;
     let elapsed := t - start_time in
     print (MsgSent (len chunk_lines) (status_code response) elapsed) ;;
     (if negb (ok response)
      then print_stderr (MsgError (text response))
      else ret tt) ;;
     ret (len chunk_lines, elapsed))
    (fun e =>
       t <- time_time ;;
       let elapsed := t - start_time in
       print_stderr (MsgException e elapsed) ;;
       ret (len chunk_lines, elapsed)).

Definition send_chunk_wrapper (args : list string * string * string)
  : Proc (Z * Z) :=
  let '(chunk_lines, host, backend) := args in
  send_chunk chunk_lines host backend.

(** ** [main] *)

(** The namespace returned by [parser.parse_args()]. *)
Record Args : Type := mkArgs {
  host : string;
  file : string;
  chunk_size : Z;
  workers : Z;
  backend : string;
  omit_timestamp : bool
}.

(** A queued task: the tuple [(chunk_lines, host, backend)]. *)
Definition Task : Type := (list string * string * string)%type.

Definition task_lines (t : Task) : list string := fst (fst t).

(** [parser.parse_args()], from the point where the options are present and
    converted: [--backend] is checked against its [choices]; a value outside
    them makes argparse print its usage error and exit with status 2. *)
Definition parse_args (argv : Args) : Proc Args :=
  if existsb (String.eqb (backend argv)) ["questdb"; "influxdb"] then
    ret argv
  else
    print_stderr (MsgUsage (backend argv)) ;;
    sys_exit 2.

(** The body of [if args.omit_timestamp:]: the line is cut at its last
    space when it has one. *)
Definition drop_timestamp (line : string) : string :=
  let parts := rsplit1 SPACE line in
  if (len parts =? 2)%Z then nth 0 parts EmptyString else line.

(** The per-line part of the reading loop. *)
Definition prepare_line (omit : bool) (line : string) : string :=
  let line := rstrip LF line in
  if omit then drop_timestamp line else line.

(** One iteration of [for line in f], on the pair [(chunk, chunks_args)]. *)
Definition read_step (args : Args) (st : list string * list Task)
  (line : string) : list string * list Task :=
  let '(chunk, chunks_args) := st in
  let line := prepare_line (omit_timestamp args) line in
  let chunk := (chunk ++ [line])%list in
  if (len chunk =? chunk_size args)%Z then
    ([], (chunks_args ++ [(chunk, host args, backend args)])%list)
  else
    (chunk, chunks_args).

(** The whole loop and the final [if chunk:]. *)
Definition read_chunks (args : Args) (lines : list string) : list Task :=
  let '(chunk, chunks_args) := fold_left (read_step args) lines ([], []) in
  match chunk with
  | [] => chunks_args
  | _ :: _ => (chunks_args ++ [(chunk, host args, backend args)])%list
  end.

(** What the pool's workers meet: for the task submitted at each position,
    the clock reading when it starts and the behaviour of the network
    towards it; and how long the whole dispatch takes on the parent's
    clock. *)
Record Scheduler : Type := mkScheduler {
  task_start : nat -> Z;
  task_wire : nat -> string -> string -> reply;
  dispatch_time : Z
}.

(** The world of the worker that runs the task at position [i]: the parent's
    file system, a console of its own. *)
Definition task_world (sch : Scheduler) (fs : string -> option (list string))
  (i : nat) : World :=
  mkWorld (task_start sch i) fs (task_wire sch i) [].

(** The tasks of one [pool.map], each run to completion in its own world.
    Returns the results in submission order and what the workers did. An
    exception raised by a task is kept and re-raised by [pool.map]. *)
Fixpoint run_tasks {A B} (f : A -> Proc B) (worlds : nat -> World) (i : nat)
  (tasks : list A) : result (list B) * list event :=
  match tasks with
  | [] => (Ok [], [])
  | t :: rest =>
      let '(r, w) := f t (worlds i) in
      let '(rs, evs) := run_tasks f worlds (S i) rest in
      (match r, rs with
       | Ok b, Ok bs => Ok (b :: bs)
       | Raise e, _ => Raise e
       | Ok _, Raise e => Raise e
       end,
       (log w ++ evs)%list)
  end.

(** [pool.map(f, tasks)]: blocks until every task is done; the workers'
    console and network activity is appended to the log in submission
    order (one of the possible interleavings). *)
Definition pool_map {A B} (sch : Scheduler) (f : A -> Proc B) (tasks : list A)
  : Proc (list B) :=
  fun w =>
    let '(r, evs) := run_tasks f (task_world sch (files w)) 0 tasks in
    (r, mkWorld (now w + dispatch_time sch) (files w) (wire w)
          (log w ++ evs)%list).

(** [with multiprocessing.Pool(processes=n) as pool: body]: the constructor
    raises [ValueError] for [n < 1]. *)
Definition with_pool {A} (processes : Z) (body : Proc A) : Proc A :=
  if (processes <? 1)%Z then
    raise (ValueError "Number of processes must be at least 1")
  else body.

(** The accumulation loop [for rows, req_time in results]. *)
Definition add_result (acc : Z * Z) (r : Z * Z) : Z * Z :=
  let '(total_rows, total_request_time) := acc in
  let '(rows, req_time) := r in
  (total_rows + rows, total_request_time + req_time).

Definition aggregate (results : list (Z * Z)) : Z * Z :=
  fold_left add_result results (0, 0).

Definition main (sch : Scheduler) (argv : Args) : Proc unit :=
  args <- parse_args argv ;;
  print MsgDividing ;;
  chunks_args <-
    try_except
      (lines <- open_lines (file args) ;;
       ret (read_chunks args lines))
      (fun e =>
         print_stderr (MsgReadError e) ;;
         sys_exit 1) ;;
  start_wall <- time_time ;;
  results <- with_pool (workers args)
               (pool_map sch send_chunk_wrapper chunks_args) ;;
  end_wall <- time_time ;;
  let wall_time := end_wall - start_wall in
  let '(total_rows, total_request_time) := aggregate results in
  print (MsgTotalRows total_rows) ;;
  print (MsgTotalRequestTime total_request_time) ;;
  print (MsgWallTime wall_time).

(** The exit status of the interpreter for an outcome of [main]. *)
Definition exit_status (r : result unit) : Z :=
  match r with
  | Ok _ => 0
  | Raise (SystemExit code) => code
  | Raise _ => 1
  end.

(** Observations on a log. *)
Definition is_post (ev : event) : bool :=
  match ev with
  | Post _ _ => true
  | _ => false
  end.

Definition posts (evs : list event) : list event := filter is_post evs.

(** What one [send_chunk] writes to the console after its request. *)
Definition progress (chunk_lines : list string) (r : reply) : list event :=
  match outcome r with
  | Responded resp =>
      Stdout (MsgSent (len chunk_lines) (status_code resp) (latency r))
      :: (if ok resp then [] else [Stderr (MsgError (text resp))])
  | Failed msg =>
      [Stderr (MsgException (RequestException msg) (latency r))]
  end.

(** The sum of a list of integers. *)
Definition total (l : list Z) : Z := fold_right Z.add 0 l.

(** A world whose network answers every request the same way. *)
Definition world_of (t0 : Z) (fs : string -> option (list string))
  (r : reply) : World :=
  mkWorld t0 fs (fun _ _ => r) [].

(** A scheduler under which every request gets the same reply. *)
Definition uniform (r : reply) : Scheduler :=
  mkScheduler (fun _ => 0) (fun _ _ _ => r) 0.

Definition no_files : string -> option (list string) := fun _ => None.

Definition one_file (path : string) (lines : list string)
  : string -> option (list string) :=
  fun p => if (p =? path)%string then Some lines else None.

(** ** The line transformation as the specification words it

    "Remove the final whitespace-delimited token and the whitespace
    immediately preceding it; a line with no whitespace is unchanged."
    Read in the way closest to the code: the cut is made at the last
    whitespace character, whatever that character is. *)

Fixpoint cut_last_whitespace (s : string) : option string :=
  match s with
  | EmptyString => None
  | String a r =>
      match cut_last_whitespace r with
      | Some h => Some (String a h)
      | None => if isspace a then Some EmptyString else None
      end
  end.

Definition spec_drop_last_token (line : string) : string :=
  match cut_last_whitespace line with
  | Some h => h
  | None => line
  end.

(** Ceiling of [a / b] for positive [b]. *)
Definition ceil_div (a b : Z) : Z := (a + b - 1) / b.

(** ** Observations used by the further properties *)

(** [s.count(c)]. *)
Fixpoint count (c : ascii) (s : string) : nat :=
  match s with
  | EmptyString => O
  | String a r => if Ascii.eqb a c then S (count c r) else count c r
  end.

(** The concatenation of a list of strings. *)
Definition cat (ls : list string) : string := fold_right append "" ls.

(** The bodies of the requests of a log, oldest first. *)
Definition post_body (ev : event) : string :=
  match ev with
  | Post _ data => data
  | _ => ""
  end.

Definition request_bodies (evs : list event) : list string :=
  map post_body (posts evs).

(** The same command line with [--omit-timestamp] set or not. *)
Definition with_omit (args : Args) (omit : bool) : Args :=
  mkArgs (host args) (file args) (chunk_size args) (workers args)
    (backend args) omit.

(** The latency of the request of each chunk, by position in the queue. *)
Definition latencies (sch : Scheduler) (url : string)
  (chunks : list (list string)) : list Z :=
  map (fun jc => latency (task_wire sch (fst jc) url (body (snd jc))))
    (combine (seq 0 (List.length chunks)) chunks).

(** * Properties *)

(** ** Strings *)

Module StrFacts.

Lemma append_nil_r (s : string) : s ++ "" = s.
Proof. induction s; simpl; congruence. Qed.

Lemma append_assoc (s t u : string) : (s ++ t) ++ u = s ++ (t ++ u).
Proof. induction s; simpl; congruence. Qed.

Lemma contains_append (c : ascii) (s t : string) :
  contains c (s ++ t) = contains c s || contains c t.
Proof.
  induction s as [|a s IH]; simpl; [reflexivity|].
  rewrite IH. now rewrite orb_assoc.
Qed.

(** *** [rstrip] *)

Lemma rstrip_decompose (c : ascii) (s : string) :
  exists k, s = rstrip c s ++ replicate k c.
Proof.
  induction s as [|a s [k IH]]; simpl.
  - now exists 0%nat.
  - destruct (rstrip c s) eqn:E.
    + destruct (Ascii.eqb_spec a c) as [->|Hne].
      * exists (S k). simpl in *. congruence.
      * exists k. simpl in *. congruence.
    + exists k. simpl in *. congruence.
Qed.

Lemma rstrip_not_endswith (c : ascii) (s : string) :
  endswith c (rstrip c s) = false.
Proof.
  induction s as [|a s IH]; simpl; [reflexivity|].
  destruct (rstrip c s) eqn:E.
  - destruct (Ascii.eqb a c) eqn:Ea; simpl; [reflexivity|exact Ea].
  - exact IH.
Qed.

Lemma rstrip_fixed (c : ascii) (s : string) :
  endswith c s = false -> rstrip c s = s.
Proof.
  induction s as [|a s IH]; simpl; [reflexivity|].
  destruct s as [|b s].
  - simpl. now intros ->.
  - intros H. rewrite (IH H). reflexivity.
Qed.

(** *** [rsplit1] *)

Lemma rsplit1_no_sep (sep : ascii) (s : string) :
  contains sep s = false -> rsplit1 sep s = [s].
Proof.
  induction s as [|a s IH]; simpl; [reflexivity|].
  intros H. apply orb_false_iff in H as [Ha Hs].
  rewrite (IH Hs), Ha. now destruct s.
Qed.

Lemma rsplit1_at_last (sep : ascii) (pre tok : string) :
  contains sep tok = false ->
  rsplit1 sep (pre ++ String sep tok) = [pre; tok].
Proof.
  intros H. induction pre as [|a pre IH]; simpl.
  - rewrite (rsplit1_no_sep _ _ H), Ascii.eqb_refl. now destruct tok.
  - now rewrite IH.
Qed.

Lemma rsplit1_sep (sep : ascii) (s : string) :
  contains sep s = true ->
  exists pre tok,
    s = pre ++ String sep tok /\ contains sep tok = false.
Proof.
  induction s as [|a s IH]; simpl; [discriminate|].
  destruct (contains sep s) eqn:Hs.
  - intros _. destruct (IH eq_refl) as (pre & tok & -> & Htok).
    now exists (String a pre), tok.
  - rewrite orb_false_r. intros Ha. apply Ascii.eqb_eq in Ha as ->.
    now exists "", s.
Qed.

(** *** [join] *)

Lemma join_cons (sep x : string) (xs : list string) :
  xs <> [] -> join sep (x :: xs) = x ++ sep ++ join sep xs.
Proof. destruct xs; [congruence | reflexivity]. Qed.

(** On a non-empty list, joining with [sep] and appending [sep] is the
    same as terminating every item with [sep]. *)
Lemma join_terminated (sep : string) (ls : list string) :
  ls <> [] ->
  join sep ls ++ sep = fold_right (fun l acc => l ++ sep ++ acc) "" ls.
Proof.
  induction ls as [|x xs IH]; [congruence|]. intros _.
  destruct xs as [|y ys].
  - simpl. now rewrite append_nil_r.
  - rewrite join_cons by discriminate.
    rewrite !append_assoc, IH by discriminate. reflexivity.
Qed.

End StrFacts.

Import StrFacts.

(** ** The line transformation *)

Lemma drop_timestamp_no_space (line : string) :
  contains SPACE line = false -> drop_timestamp line = line.
Proof.
  intros H. unfold drop_timestamp. now rewrite (rsplit1_no_sep _ _ H).
Qed.

Lemma drop_timestamp_cut (pre tok : string) :
  contains SPACE tok = false ->
  drop_timestamp (pre ++ String SPACE tok) = pre.
Proof.
  intros H. unfold drop_timestamp. now rewrite (rsplit1_at_last _ _ _ H).
Qed.

Lemma drop_timestamp_cases (line : string) :
  (contains SPACE line = false /\ drop_timestamp line = line) \/
  (exists tok,
     contains SPACE tok = false /\
     line = drop_timestamp line ++ String SPACE tok).
Proof.
  destruct (contains SPACE line) eqn:H.
  - right. destruct (rsplit1_sep _ _ H) as (pre & tok & -> & Htok).
    exists tok. now rewrite (drop_timestamp_cut _ _ Htok).
  - left. split; [reflexivity | now apply drop_timestamp_no_space].
Qed.

(** C2 (defect of the code): the comment above the cut in the source says
    that the last token is removed "along with preceding whitespace", and
    the specification asks for the final whitespace-delimited token and the
    whitespace before it to go. The line made of [a], a tab and [1]
    contains whitespace and its last whitespace-delimited token is [1], so
    the result should be ["a"]; the code, which splits on the space
    character only, returns the line as it is. *)
Lemma drop_timestamp_tab_divergence :
  has_space ("a" ++ chr TAB ++ "1") = true /\
  spec_drop_last_token ("a" ++ chr TAB ++ "1") = "a" /\
  drop_timestamp ("a" ++ chr TAB ++ "1") = "a" ++ chr TAB ++ "1" /\
  drop_timestamp ("a" ++ chr TAB ++ "1")
    <> spec_drop_last_token ("a" ++ chr TAB ++ "1").
Proof. repeat split; try reflexivity. discriminate. Qed.

(** C10: the transformation splits on the space character only and removes
    at most the last space and what follows it. A line without a space, in
    particular one whose tokens are set off by a tab or any other
    character, is unchanged; when several spaces precede the final token
    only the last of them goes; a line ending in a space loses just that
    space. *)
Theorem drop_timestamp_space_only :
  (forall line,
     drop_timestamp line = line \/
     exists tok,
       contains SPACE tok = false /\
       line = drop_timestamp line ++ chr SPACE ++ tok) /\
  (forall c pre tok,
     c <> SPACE -> contains SPACE pre = false -> contains SPACE tok = false ->
     drop_timestamp (pre ++ chr c ++ tok) = pre ++ chr c ++ tok) /\
  (forall k pre tok,
     contains SPACE tok = false ->
     drop_timestamp (pre ++ replicate (S k) SPACE ++ tok)
     = pre ++ replicate k SPACE) /\
  (forall pre, drop_timestamp (pre ++ chr SPACE) = pre).
Proof.
  repeat split.
  - intros line. destruct (drop_timestamp_cases line) as [[_ H]|H]; auto.
  - intros c pre tok Hc Hpre Htok. apply drop_timestamp_no_space.
    rewrite contains_append, Hpre. simpl. rewrite Htok, orb_false_r.
    now apply Ascii.eqb_neq.
  - intros k pre tok Htok.
    replace (pre ++ replicate (S k) SPACE ++ tok)
      with ((pre ++ replicate k SPACE) ++ String SPACE tok).
    + now apply drop_timestamp_cut.
    + rewrite append_assoc. f_equal.
      clear. induction k; simpl; [reflexivity|]. now rewrite IHk.
  - intros pre. now apply drop_timestamp_cut.
Qed.

Lemma drop_timestamp_space_only_witness :
  drop_timestamp ("a" ++ chr TAB ++ "1") = "a" ++ chr TAB ++ "1" /\
  drop_timestamp "a   1" = "a  " /\
  drop_timestamp "a 1 " = "a 1".
Proof.
  destruct drop_timestamp_space_only as (_ & Htab & Hmany & Hend).
  split; [|split].
  - apply (Htab TAB "a" "1"); [discriminate | reflexivity | reflexivity].
  - apply (Hmany 2%nat "a" "1"). reflexivity.
  - apply (Hend "a 1").
Defined.

(** ** [get_endpoint] *)

Lemma get_endpoint_unknown (h b : string) :
  b <> "questdb" -> b <> "influxdb" ->
  get_endpoint h b = Raise (ValueError ("Unsupported backend: " ++ b)).
Proof.
  intros Hq Hi. unfold get_endpoint.
  apply String.eqb_neq in Hq, Hi. now rewrite Hq, Hi.
Qed.

(** C3: the resolver strips the trailing slashes of the host and appends
    the path of the backend: [/write] for "questdb",
    [/api/v3/write_lp?db=sensors&precision=auto] for "influxdb"; any other
    backend raises [ValueError]. The stripped host is the host without its
    trailing run of slashes. *)
Theorem get_endpoint_resolves (h : string) :
  get_endpoint h "questdb" = Ok (rstrip SLASH h ++ "/write") /\
  get_endpoint h "influxdb"
  = Ok (rstrip SLASH h ++ "/api/v3/write_lp?db=sensors&precision=auto") /\
  (forall b,
     b <> "questdb" -> b <> "influxdb" ->
     get_endpoint h b = Raise (ValueError ("Unsupported backend: " ++ b))) /\
  (endswith SLASH (rstrip SLASH h) = false /\
   exists k, h = rstrip SLASH h ++ replicate k SLASH) /\
  get_endpoint "http://h:9/" "questdb" = Ok "http://h:9/write" /\
  get_endpoint "http://h:9" "influxdb"
  = Ok "http://h:9/api/v3/write_lp?db=sensors&precision=auto".
Proof.
  repeat split; try reflexivity.
  - intros b. apply get_endpoint_unknown.
  - apply rstrip_not_endswith.
  - apply rstrip_decompose.
Qed.

Lemma get_endpoint_resolves_witness :
  get_endpoint "http://h:9//" "kdb"
  = Raise (ValueError "Unsupported backend: kdb").
Proof.
  apply (proj1 (proj2 (proj2 (get_endpoint_resolves "http://h:9//"))) "kdb");
    discriminate.
Defined.

(** ** [send_chunk] *)

Section SendChunk.

Variables (chunk_lines : list string) (h b : string) (w : World).

Lemma send_chunk_unknown (e : exn) :
  get_endpoint h b = Raise e ->
  send_chunk chunk_lines h b w = (Raise e, w).
Proof. intros H. unfold send_chunk, bind, lift. now rewrite H. Qed.

(** With a backend the resolver knows, [send_chunk] returns a pair whatever
    the network does: one request goes out, the clock advances by its
    latency, and the console gets the progress lines. *)
Lemma send_chunk_run (url : string) :
  get_endpoint h b = Ok url ->
  send_chunk chunk_lines h b w
  = (Ok (len chunk_lines, latency (wire w url (body chunk_lines))),
     mkWorld (now w + latency (wire w url (body chunk_lines)))
       (files w) (wire w)
       (log w ++ Post url (body chunk_lines)
          :: progress chunk_lines (wire w url (body chunk_lines)))).
Proof.
  intros H.
  unfold send_chunk, bind, lift, try_except, requests_post, time_time,
    print, print_stderr, emit, ret, progress.
  rewrite H. cbn.
  destruct (outcome (wire w url (body chunk_lines))) as [resp|msg]; cbn.
  - destruct (ok resp); cbn; rewrite <- !app_assoc; cbn;
      repeat f_equal; lia.
  - rewrite <- !app_assoc; cbn; repeat f_equal; lia.
Qed.

End SendChunk.

(** ** The reading loop *)

Section Chunker.

Variable args : Args.

Local Open Scope list_scope.

Local Abbreviation prep := (prepare_line (omit_timestamp args)).
Local Abbreviation mk := (fun c : list string => (c, host args, backend args)).
Local Abbreviation run lines st := (fold_left (read_step args) lines st).

Lemma read_step_eq (chunk : list string) (done : list Task) (l : string) :
  read_step args (chunk, done) l
  = if (len (chunk ++ [prep l]) =? chunk_size args)%Z
    then ([], done ++ [mk (chunk ++ [prep l])])
    else (chunk ++ [prep l], done).
Proof. reflexivity. Qed.

(** Whatever the chunk size, the closed chunks followed by the open one are
    the lines read so far, in order. *)
Lemma read_fold_concat (lines chunk : list string) (done : list Task) :
  List.concat (map task_lines (snd (run lines (chunk, done))))
    ++ fst (run lines (chunk, done))
  = List.concat (map task_lines done) ++ chunk ++ map prep lines.
Proof.
  revert chunk done. induction lines as [|l lines IH]; intros chunk done.
  - cbn. now rewrite app_nil_r.
  - cbn [fold_left map]. rewrite read_step_eq.
    destruct (len (chunk ++ [prep l]) =? chunk_size args)%Z.
    + rewrite IH, map_app, List.concat_app. cbn.
      now rewrite app_nil_r, <- !app_assoc.
    + rewrite IH. now rewrite <- !app_assoc.
Qed.

(** Every queued task carries the host and the backend of the run. *)
Lemma read_fold_dest (lines chunk : list string) (done : list Task) :
  Forall (fun t => t = mk (task_lines t)) done ->
  Forall (fun t => t = mk (task_lines t)) (snd (run lines (chunk, done))).
Proof.
  revert chunk done. induction lines as [|l lines IH]; intros chunk done Hd.
  - exact Hd.
  - cbn [fold_left]. rewrite read_step_eq.
    destruct (len (chunk ++ [prep l]) =? chunk_size args)%Z; apply IH; auto.
    apply Forall_app. split; [exact Hd | now constructor].
Qed.

(** With a chunk size that is not positive the loop never closes a chunk. *)
Lemma read_fold_nonpositive (lines chunk : list string) (done : list Task) :
  chunk_size args <= 0 ->
  run lines (chunk, done) = (chunk ++ map prep lines, done).
Proof.
  intros HN. revert chunk. induction lines as [|l lines IH]; intros chunk.
  - cbn. now rewrite app_nil_r.
  - cbn [fold_left map]. rewrite read_step_eq.
    destruct (Z.eqb_spec (len (chunk ++ [prep l])) (chunk_size args)) as [E|_].
    + unfold len in E. rewrite length_app in E. cbn in E. lia.
    + rewrite IH. now rewrite <- app_assoc.
Qed.

(** With a positive chunk size [n], closed chunks hold [n] lines, and the
    counts follow the quotient and remainder of the number of lines. *)
Lemma read_fold_count (n : nat) (lines chunk : list string)
  (done : list Task) :
  chunk_size args = Z.of_nat n ->
  (List.length chunk < n)%nat ->
  Forall (fun t => List.length (task_lines t) = n) done ->
  Forall (fun t => List.length (task_lines t) = n) (snd (run lines (chunk, done)))
  /\ List.length (snd (run lines (chunk, done)))
     = (List.length done + (List.length chunk + List.length lines) / n)%nat
  /\ List.length (fst (run lines (chunk, done)))
     = ((List.length chunk + List.length lines) mod n)%nat.
Proof.
  intros HN. revert chunk done.
  induction lines as [|l lines IH]; intros chunk done Hc Hd.
  - cbn [fold_left fst snd List.length]. rewrite Nat.add_0_r.
    rewrite Nat.div_small, Nat.mod_small by exact Hc.
    repeat split; [exact Hd | lia].
  - cbn [fold_left]. rewrite read_step_eq.
    assert (Hlen : List.length (chunk ++ [prep l]) = S (List.length chunk))
      by (rewrite length_app; cbn; lia).
    destruct (Z.eqb_spec (len (chunk ++ [prep l])) (chunk_size args)) as [E|E];
      unfold len in E; rewrite Hlen, HN in E.
    + apply Nat2Z.inj in E.
      destruct (IH [] (done ++ [mk (chunk ++ [prep l])])) as (H1 & H2 & H3).
      * cbn. lia.
      * apply Forall_app. split; [exact Hd|]. constructor; [|constructor].
        unfold task_lines. cbn. lia.
      * cbn [List.length Nat.add] in H2, H3.
        repeat split; [exact H1 | |].
        -- rewrite H2, length_app. cbn [List.length].
           replace (List.length chunk + S (List.length lines))%nat
             with (List.length lines + 1 * n)%nat by lia.
           rewrite Nat.div_add by lia. lia.
        -- rewrite H3. cbn [List.length].
           replace (List.length chunk + S (List.length lines))%nat
             with (List.length lines + 1 * n)%nat by lia.
           now rewrite Nat.Div0.mod_add.
    + assert (Hlt : (S (List.length chunk) < n)%nat) by lia.
      destruct (IH (chunk ++ [prep l]) done) as (H1 & H2 & H3);
        [lia | exact Hd |].
      rewrite Hlen in H2, H3. cbn [List.length].
      replace (List.length chunk + S (List.length lines))%nat
        with (S (List.length chunk) + List.length lines)%nat by lia.
      auto.
Qed.

End Chunker.

Section ReadChunks.

Variables (args : Args) (lines : list string).

Local Open Scope list_scope.

Local Abbreviation prep := (prepare_line (omit_timestamp args)).
Local Abbreviation mk := (fun c : list string => (c, host args, backend args)).
Local Abbreviation final := (fold_left (read_step args) lines ([], [])).

Lemma read_chunks_eq :
  read_chunks args lines
  = match fst final with
    | [] => snd final
    | _ :: _ => snd final ++ [mk (fst final)]
    end.
Proof. unfold read_chunks. now destruct final as [[|c chunk] done]. Qed.

Lemma read_chunks_concat :
  List.concat (map task_lines (read_chunks args lines)) = map prep lines.
Proof.
  pose proof (read_fold_concat args lines [] []) as H. cbn in H.
  rewrite read_chunks_eq. destruct (fst final) as [|c chunk] eqn:E.
  - now rewrite app_nil_r in H.
  - rewrite map_app, List.concat_app. cbn. now rewrite app_nil_r.
Qed.

Lemma read_chunks_dest :
  read_chunks args lines = map mk (map task_lines (read_chunks args lines)).
Proof.
  assert (H : Forall (fun t => t = mk (task_lines t)) (read_chunks args lines)).
  { rewrite read_chunks_eq.
    pose proof (read_fold_dest args lines [] [] (Forall_nil _)) as Hd.
    destruct (fst final); [exact Hd|].
    apply Forall_app. split; [exact Hd | now constructor]. }
  induction H as [|t ts Ht _ IH]; [reflexivity|].
  cbn [map]. now rewrite <- IH, <- Ht.
Qed.

Lemma read_chunks_nonpositive :
  chunk_size args <= 0 ->
  map task_lines (read_chunks args lines)
  = match lines with
    | [] => []
    | _ :: _ => [map prep lines]
    end.
Proof.
  intros HN. rewrite read_chunks_eq, (read_fold_nonpositive args) by exact HN.
  now destruct lines.
Qed.

(** The shape of the queue for a positive chunk size [n]: [L / n] chunks of
    [n] lines, then one chunk of [L mod n] lines when that is not zero. *)
Lemma read_chunks_shape (n : nat) :
  chunk_size args = Z.of_nat n -> (0 < n)%nat ->
  exists full rest,
    map task_lines (read_chunks args lines)
    = full ++ match rest with [] => [] | _ :: _ => [rest] end
    /\ Forall (fun c => List.length c = n) full
    /\ List.length full = (List.length lines / n)%nat
    /\ List.length rest = (List.length lines mod n)%nat.
Proof.
  intros HN Hn.
  destruct (read_fold_count args n lines [] [] HN Hn (Forall_nil _))
    as (H1 & H2 & H3).
  cbn [List.length Nat.add] in H2, H3.
  exists (map task_lines (snd final)), (fst final).
  repeat split.
  - rewrite read_chunks_eq. destruct (fst final).
    + now rewrite app_nil_r.
    + now rewrite map_app.
  - apply Forall_map. exact H1.
  - now rewrite length_map.
  - exact H3.
Qed.

End ReadChunks.

Open Scope Z_scope.

Lemma ceil_div_split (L N : Z) :
  0 < N -> 0 <= L ->
  ceil_div L N = L / N + (if L mod N =? 0 then 0 else 1).
Proof.
  intros HN HL. unfold ceil_div.
  pose proof (Z.div_mod L N ltac:(lia)) as Hdm.
  pose proof (Z.mod_pos_bound L N HN) as Hr.
  destruct (Z.eqb_spec (L mod N) 0) as [E|E].
  - symmetry. apply (Z.div_unique _ _ _ (N - 1)); lia.
  - symmetry. apply (Z.div_unique _ _ _ (L mod N - 1)); lia.
Qed.

Lemma prepare_lines_plain (lines : list string) :
  Forall (fun l => endswith LF l = false) lines ->
  map (prepare_line false) lines = lines.
Proof.
  induction 1 as [|l lines Hl _ IH]; [reflexivity|].
  cbn [map]. rewrite IH. unfold prepare_line. now rewrite rstrip_fixed.
Qed.

(** C1: for a positive chunk size [N] and [L] input lines the queue holds
    [ceil (L / N)] chunks; their concatenation, in order, is the sequence of
    lines that entered the loop (the lines of the file themselves when they
    carry no newline and no token is dropped); every chunk but the last has
    [N] lines and
    the last has [L mod N] lines, or [N] when [N] divides [L]; no line, no
    chunk. *)
Theorem read_chunks_partition (args : Args) (lines : list string) :
  0 < chunk_size args ->
  len (map task_lines (read_chunks args lines))
  = ceil_div (len lines) (chunk_size args) /\
  chunk_size args * (len (map task_lines (read_chunks args lines)) - 1)
  < len lines
  <= chunk_size args * len (map task_lines (read_chunks args lines)) /\
  List.concat (map task_lines (read_chunks args lines))
  = map (prepare_line (omit_timestamp args)) lines /\
  (omit_timestamp args = false ->
   Forall (fun l => endswith LF l = false) lines ->
   List.concat (map task_lines (read_chunks args lines)) = lines) /\
  (forall i c,
     nth_error (map task_lines (read_chunks args lines)) i = Some c ->
     (S i < List.length (map task_lines (read_chunks args lines)))%nat ->
     len c = chunk_size args) /\
  (forall c,
     nth_error (map task_lines (read_chunks args lines))
       (List.length (map task_lines (read_chunks args lines)) - 1) = Some c ->
     len c = if len lines mod chunk_size args =? 0
             then chunk_size args
             else len lines mod chunk_size args) /\
  (lines = [] -> map task_lines (read_chunks args lines) = []).
Proof.
  intros HN.
  assert (Hn : chunk_size args = Z.of_nat (Z.to_nat (chunk_size args))) by lia.
  destruct (read_chunks_shape args lines _ Hn ltac:(lia))
    as (full & rest & Hs & Hfull & Hq & Hr).
  pose proof (read_chunks_concat args lines) as Hcat.
  assert (Hid : omit_timestamp args = false ->
                Forall (fun l => endswith LF l = false) lines ->
                List.concat (map task_lines (read_chunks args lines)) = lines).
  { intros Homit Hlf. rewrite Hcat, Homit. now apply prepare_lines_plain. }
  rewrite Hs in *. clear Hs.
  set (N := chunk_size args) in *. set (n := Z.to_nat N) in *.
  assert (HqZ : len full = len lines / N).
  { unfold len. rewrite Hq, Hn. apply Nat2Z.inj_div. }
  assert (HrZ : len rest = len lines mod N).
  { unfold len. rewrite Hr, Hn. apply Nat2Z.inj_mod. }
  assert (Hin : forall c, In c full -> len c = N).
  { intros c Hc. rewrite Forall_forall in Hfull. unfold len.
    rewrite (Hfull c Hc). lia. }
  pose proof (Z.div_mod (len lines) N ltac:(lia)) as Hdm.
  pose proof (Z.mod_pos_bound (len lines) N HN) as Hbound.
  assert (HL : 0 <= len lines) by (unfold len; lia).
  rewrite (ceil_div_split _ _ HN HL).
  destruct rest as [|l rest].
  - (* the number of lines is a multiple of the chunk size *)
    rewrite app_nil_r in *.
    assert (Hz : len lines mod N = 0) by (rewrite <- HrZ; reflexivity).
    rewrite Hz in *. cbn [Z.eqb].
    repeat split; try lia; try exact Hcat; try exact Hid.
    + intros i c Hc _. apply Hin. eapply nth_error_In, Hc.
    + intros c Hc. apply Hin. eapply nth_error_In, Hc.
    + intros ->. cbn in Hq. rewrite Nat.Div0.div_0_l in Hq.
      now destruct full.
  - (* a last, shorter chunk *)
    assert (Hpos : 0 < len lines mod N).
    { rewrite <- HrZ. unfold len. cbn [List.length]. lia. }
    destruct (Z.eqb_spec (len lines mod N) 0) as [E|_]; [lia|].
    assert (Hlen : len (full ++ [l :: rest]) = len full + 1).
    { unfold len. rewrite length_app. cbn [List.length]. lia. }
    rewrite Hlen.
    repeat split; try lia; try exact Hcat; try exact Hid.
    + intros i c Hc Hi. rewrite length_app in Hi. cbn [List.length] in Hi.
      rewrite nth_error_app1 in Hc by lia.
      apply Hin. eapply nth_error_In, Hc.
    + intros c. rewrite length_app. cbn [List.length].
      rewrite nth_error_app2 by lia.
      replace (List.length full + 1 - 1 - List.length full)%nat with 0%nat
        by lia.
      cbn. intros [= <-]. exact HrZ.
    + intros ->. cbn in Hr. rewrite Nat.Div0.mod_0_l in Hr. discriminate.
Qed.

Lemma read_chunks_partition_witness :
  map task_lines
    (read_chunks (mkArgs "http://h:9" "f" 3 1 "questdb" false)
       ["1"; "2"; "3"; "4"; "5"; "6"; "7"; "8"; "9"; "10"])
  = [["1"; "2"; "3"]; ["4"; "5"; "6"]; ["7"; "8"; "9"]; ["10"]] /\
  len (map task_lines
         (read_chunks (mkArgs "http://h:9" "f" 3 1 "questdb" false)
            ["1"; "2"; "3"; "4"; "5"; "6"; "7"; "8"; "9"; "10"]))
  = ceil_div 10 3 /\
  List.concat
    (map task_lines
       (read_chunks (mkArgs "http://h:9" "f" 3 1 "questdb" false)
          ["1"; "2"; "3"; "4"; "5"; "6"; "7"; "8"; "9"; "10"]))
  = ["1"; "2"; "3"; "4"; "5"; "6"; "7"; "8"; "9"; "10"] /\
  len ["10"] = 10 mod 3.
Proof.
  destruct (read_chunks_partition
              (mkArgs "http://h:9" "f" 3 1 "questdb" false)
              ["1"; "2"; "3"; "4"; "5"; "6"; "7"; "8"; "9"; "10"]
              eq_refl)
    as (Hcount & _ & _ & Hid & _ & Hlast & _).
  split; [reflexivity|]. split; [exact Hcount|]. split.
  - apply Hid; [reflexivity | repeat constructor].
  - exact (Hlast ["10"] eq_refl).
Defined.

(** ** The accumulation loop *)

Lemma fold_add_result (results : list (Z * Z)) (rows time : Z) :
  fold_left add_result results (rows, time)
  = (rows + total (map fst results), time + total (map snd results)).
Proof.
  revert rows time. induction results as [|[r t] results IH]; intros rows time.
  - cbn. f_equal; lia.
  - cbn [fold_left map total fold_right fst snd add_result]. rewrite IH.
    unfold total. f_equal; lia.
Qed.

Lemma aggregate_total (results : list (Z * Z)) :
  aggregate results = (total (map fst results), total (map snd results)).
Proof. unfold aggregate. now rewrite fold_add_result. Qed.

Lemma total_len_concat {A} (chunks : list (list A)) :
  total (map len chunks) = len (List.concat chunks).
Proof.
  induction chunks as [|c chunks IH]; [reflexivity|].
  cbn [map total fold_right List.concat]. fold (total (map len chunks)).
  rewrite IH. unfold len. rewrite length_app. lia.
Qed.

(** ** The dispatch *)

Lemma posts_app (a b : list event) : posts (a ++ b)%list = (posts a ++ posts b)%list.
Proof. apply filter_app. Qed.

Lemma posts_progress (chunk_lines : list string) (r : reply) :
  posts (progress chunk_lines r) = [].
Proof.
  unfold progress. destruct (outcome r) as [resp|msg]; [|reflexivity].
  now destruct (ok resp).
Qed.

Section Dispatch.

Variables (sch : Scheduler) (fs : string -> option (list string)).
Variables (h b url : string).
Hypothesis Hurl : get_endpoint h b = Ok url.

Local Open Scope list_scope.

(** With a backend the resolver knows no task raises: the pool gets one
    pair per chunk, in submission order, and one request per chunk goes
    out, carrying that chunk's body. *)
Lemma run_tasks_send_chunk (chunks : list (list string)) (i : nat) :
  exists results evs,
    run_tasks send_chunk_wrapper (task_world sch fs) i
      (map (fun c => (c, h, b)) chunks) = (Ok results, evs)
    /\ map fst results = map len chunks
    /\ posts evs = map (fun c => Post url (body c)) chunks
    /\ forall j c,
         nth_error chunks j = Some c ->
         nth_error results j
         = Some (len c, latency (task_wire sch (i + j) url (body c))).
Proof.
  revert i. induction chunks as [|c chunks IH]; intros i.
  - exists [], []. repeat split. intros [|j] c; discriminate.
  - destruct (IH (S i)) as (results & evs & E & Hrows & Hposts & Hnth).
    cbn [map run_tasks]. unfold send_chunk_wrapper at 1.
    rewrite (send_chunk_run c h b _ url Hurl), E. cbn [log task_world wire].
    eexists _, _. split; [reflexivity|]. repeat split.
    + cbn [map fst]. now rewrite Hrows.
    + rewrite !posts_app. change (?x :: ?l) with ([x] ++ l).
      now rewrite posts_app, posts_progress, Hposts.
    + intros [|j] c' Hc'.
      * cbn in Hc'. injection Hc' as <-. cbn. now rewrite Nat.add_0_r.
      * cbn in Hc'. cbn [nth_error]. rewrite (Hnth j c' Hc').
        now rewrite Nat.add_succ_r.
Qed.

End Dispatch.

(** ** [main] *)

Lemma bind_ok {A B} (m : Proc A) (k : A -> Proc B) (w w' : World) (a : A) :
  m w = (Ok a, w') -> bind m k w = k a w'.
Proof. intros H. unfold bind. now rewrite H. Qed.

Lemma bind_raise {A B} (m : Proc A) (k : A -> Proc B) (w w' : World)
  (e : exn) :
  m w = (Raise e, w') -> bind m k w = (Raise e, w').
Proof. intros H. unfold bind. now rewrite H. Qed.

Lemma parse_args_known (argv : Args) (w : World) :
  existsb (String.eqb (backend argv)) ["questdb"; "influxdb"] = true ->
  parse_args argv w = (Ok argv, w).
Proof. intros H. unfold parse_args. now rewrite H. Qed.

Lemma parse_args_unknown (argv : Args) (w : World) :
  existsb (String.eqb (backend argv)) ["questdb"; "influxdb"] = false ->
  parse_args argv w
  = (Raise (SystemExit 2),
     mkWorld (now w) (files w) (wire w)
       (log w ++ [Stderr (MsgUsage (backend argv))])).
Proof. intros H. unfold parse_args. now rewrite H. Qed.

Lemma choices_unknown (b : string) :
  b <> "questdb" -> b <> "influxdb" ->
  existsb (String.eqb b) ["questdb"; "influxdb"] = false.
Proof.
  intros Hq Hi. apply String.eqb_neq in Hq, Hi. cbn. now rewrite Hq, Hi.
Qed.

Section Main.

Variables (sch : Scheduler) (argv : Args) (w : World).

Local Open Scope list_scope.

(** A backend outside the choices stops the run in [parse_args]. *)
Lemma main_unknown_backend :
  existsb (String.eqb (backend argv)) ["questdb"; "influxdb"] = false ->
  main sch argv w
  = (Raise (SystemExit 2),
     mkWorld (now w) (files w) (wire w)
       (log w ++ [Stderr (MsgUsage (backend argv))])).
Proof.
  intros H. unfold main.
  now rewrite (bind_raise _ _ _ _ _ (parse_args_unknown argv w H)).
Qed.

(** A file that cannot be opened stops the run with status 1. *)
Lemma main_unreadable :
  existsb (String.eqb (backend argv)) ["questdb"; "influxdb"] = true ->
  files w (file argv) = None ->
  main sch argv w
  = (Raise (SystemExit 1),
     mkWorld (now w) (files w) (wire w)
       (log w ++ [Stdout MsgDividing;
                  Stderr (MsgReadError (OSError (file argv)))])).
Proof.
  intros Hb Hf. unfold main.
  rewrite (bind_ok _ _ _ _ _ (parse_args_known argv w Hb)).
  unfold bind, print, print_stderr, emit, try_except, open_lines, sys_exit,
    raise. cbn. rewrite Hf. cbn. now rewrite <- app_assoc.
Qed.

(** With a known backend, a readable file and at least one worker the run
    goes through, whatever the chunk size and whatever the network does:
    every chunk of the queue is posted once and the report is printed. *)
Lemma main_run (lines : list string) (url : string) :
  get_endpoint (host argv) (backend argv) = Ok url ->
  existsb (String.eqb (backend argv)) ["questdb"; "influxdb"] = true ->
  files w (file argv) = Some lines ->
  1 <= workers argv ->
  exists results evs,
    main sch argv w
    = (Ok tt,
       mkWorld (now w + dispatch_time sch) (files w) (wire w)
         (log w ++ Stdout MsgDividing :: evs
            ++ [Stdout (MsgTotalRows (total (map fst results)));
                Stdout (MsgTotalRequestTime (total (map snd results)));
                Stdout (MsgWallTime (dispatch_time sch))]))
    /\ map fst results = map len (map task_lines (read_chunks argv lines))
    /\ posts evs
       = map (fun c => Post url (body c))
           (map task_lines (read_chunks argv lines))
    /\ forall j c,
         nth_error (map task_lines (read_chunks argv lines)) j = Some c ->
         nth_error results j
         = Some (len c, latency (task_wire sch j url (body c))).
Proof.
  intros Hurl Hb Hf HW.
  destruct (run_tasks_send_chunk sch (files w) _ _ _ Hurl
              (map task_lines (read_chunks argv lines)) 0)
    as (results & evs & E & Hrows & Hposts & Hnth).
  rewrite <- read_chunks_dest in E.
  exists results, evs. split; [|auto].
  unfold main.
  rewrite (bind_ok _ _ _ _ _ (parse_args_known argv w Hb)).
  unfold bind, print, emit, try_except, open_lines, time_time, with_pool,
    pool_map, ret.
  cbn [files now wire log]. rewrite Hf.
  destruct (Z.ltb_spec (workers argv) 1) as [Hlt|_]; [lia|].
  cbn [files now wire log].
  rewrite E, aggregate_total. cbn [files now wire log].
  rewrite <- !app_assoc. cbn [app].
  repeat f_equal. lia.
Qed.

End Main.

Lemma get_endpoint_choices (h b url : string) :
  get_endpoint h b = Ok url ->
  existsb (String.eqb b) ["questdb"; "influxdb"] = true.
Proof.
  unfold get_endpoint. cbn.
  destruct (b =? "questdb")%string; [reflexivity|].
  destruct (b =? "influxdb")%string; [reflexivity|discriminate].
Qed.

(** ** The chunk sender *)

(** C7: for a chunk with at least one line and a backend the resolver
    knows, [send_chunk] issues exactly one request; its body is the lines
    joined by a newline with one newline appended, which is every line
    followed by one newline. *)
Theorem send_chunk_request_body (chunk_lines : list string)
  (h b url : string) (w : World) :
  chunk_lines <> [] ->
  get_endpoint h b = Ok url ->
  posts (log (snd (send_chunk chunk_lines h b w)))
  = (posts (log w) ++ [Post url (join (chr LF) chunk_lines ++ chr LF)])%list /\
  join (chr LF) chunk_lines ++ chr LF
  = fold_right (fun l acc => l ++ chr LF ++ acc) "" chunk_lines.
Proof.
  intros Hne Hurl. split.
  - rewrite (send_chunk_run _ _ _ _ _ Hurl). cbn [snd log].
    rewrite posts_app. change (?x :: ?l) with ([x] ++ l)%list.
    now rewrite posts_app, posts_progress.
  - now apply join_terminated.
Qed.

Lemma send_chunk_request_body_witness :
  posts (log (snd (send_chunk ["a"; "b"] "http://h:9/" "questdb"
                     (world_of 0 no_files (Reply 5 (Failed "refused"))))))
  = [Post "http://h:9/write" ("a" ++ chr LF ++ "b" ++ chr LF)].
Proof.
  apply (send_chunk_request_body ["a"; "b"] "http://h:9/" "questdb"
           "http://h:9/write"
           (world_of 0 no_files (Reply 5 (Failed "refused"))));
    [discriminate | reflexivity].
Defined.

(** ** Unknown backends *)

(** C8: a run whose backend is neither "questdb" nor "influxdb" ends in
    [parse_args] with the usage error and exit status 2; nothing is read,
    queued or sent. In [send_chunk] itself such a backend raises
    [ValueError] before the request is made and is not turned into a
    per-chunk result. *)
Theorem unknown_backend_stops_run (sch : Scheduler) (argv : Args)
  (w : World) :
  backend argv <> "questdb" ->
  backend argv <> "influxdb" ->
  main sch argv w
  = (Raise (SystemExit 2),
     mkWorld (now w) (files w) (wire w)
       (log w ++ [Stderr (MsgUsage (backend argv))])) /\
  exit_status (fst (main sch argv w)) = 2 /\
  posts (log (snd (main sch argv w))) = posts (log w) /\
  (forall chunk_lines h w',
     send_chunk chunk_lines h (backend argv) w'
     = (Raise (ValueError ("Unsupported backend: " ++ backend argv)), w')).
Proof.
  intros Hq Hi.
  rewrite (main_unknown_backend sch argv w (choices_unknown _ Hq Hi)).
  repeat split.
  - cbn [snd log]. rewrite posts_app. cbn. now rewrite app_nil_r.
  - intros chunk_lines h w'. apply send_chunk_unknown.
    now apply get_endpoint_unknown.
Qed.

Lemma unknown_backend_stops_run_witness :
  main (uniform (Reply 5 (Responded (Response 204 true ""))))
    (mkArgs "http://h:9" "data.lp" 3 1 "kdb" false)
    (world_of 0 (one_file "data.lp" ["a"]) (Reply 0 (Failed "")))
  = (Raise (SystemExit 2),
     mkWorld 0 (one_file "data.lp" ["a"]) (fun _ _ => Reply 0 (Failed ""))
       [Stderr (MsgUsage "kdb")]).
Proof.
  apply (unknown_backend_stops_run
           (uniform (Reply 5 (Responded (Response 204 true ""))))
           (mkArgs "http://h:9" "data.lp" 3 1 "kdb" false)
           (world_of 0 (one_file "data.lp" ["a"]) (Reply 0 (Failed ""))));
    discriminate.
Defined.

(** ** The dispatcher *)

(** C9: for [K] chunks and [W >= 1] workers, [pool.map] returns [K] pairs,
    the pair at position [j] being that of the chunk at position [j]; when
    it returns, each chunk has been posted exactly once. *)
Theorem dispatch_one_result_per_chunk (sch : Scheduler) (W : Z)
  (h b url : string) (chunks : list (list string)) (w : World) :
  1 <= W ->
  get_endpoint h b = Ok url ->
  exists results evs,
    with_pool W
      (pool_map sch send_chunk_wrapper (map (fun c => (c, h, b)) chunks)) w
    = (Ok results,
       mkWorld (now w + dispatch_time sch) (files w) (wire w)
         (log w ++ evs)%list)
    /\ List.length results = List.length chunks
    /\ (forall j c,
          nth_error chunks j = Some c ->
          nth_error results j
          = Some (len c, latency (task_wire sch j url (body c))))
    /\ posts evs = map (fun c => Post url (body c)) chunks.
Proof.
  intros HW Hurl.
  destruct (run_tasks_send_chunk sch (files w) _ _ _ Hurl chunks 0)
    as (results & evs & E & Hrows & Hposts & Hnth).
  exists results, evs. repeat split.
  - unfold with_pool, pool_map.
    destruct (Z.ltb_spec W 1) as [Hlt|_]; [lia|]. now rewrite E.
  - rewrite <- (length_map fst results), Hrows. apply length_map.
  - exact Hnth.
  - exact Hposts.
Qed.

Lemma dispatch_one_result_per_chunk_witness :
  exists results,
    fst (with_pool 4
           (pool_map (uniform (Reply 5 (Failed "refused"))) send_chunk_wrapper
              [(["a"; "b"], "http://h:9", "questdb");
               (["c"], "http://h:9", "questdb")])
           (world_of 0 no_files (Reply 0 (Failed ""))))
    = Ok results
    /\ List.length results = 2%nat
    /\ nth_error results 1 = Some (1, 5).
Proof.
  destruct (dispatch_one_result_per_chunk
              (uniform (Reply 5 (Failed "refused"))) 4
              "http://h:9" "questdb" "http://h:9/write" [["a"; "b"]; ["c"]]
              (world_of 0 no_files (Reply 0 (Failed "")))
              ltac:(lia) eq_refl)
    as (results & evs & E & Hlen & Hnth & _).
  exists results. split; [exact (f_equal fst E)|].
  split; [exact Hlen | exact (Hnth 1%nat ["c"] eq_refl)].
Defined.

(** ** Whole runs *)

Section Runs.

Variables (sch : Scheduler) (argv : Args) (w : World).
Variables (lines : list string) (url : string).
Hypothesis Hurl : get_endpoint (host argv) (backend argv) = Ok url.
Hypothesis Hfile : files w (file argv) = Some lines.
Hypothesis Hworkers : 1 <= workers argv.

Local Open Scope list_scope.

(** A run that can start completes: exit status 0, one request per queued
    chunk, and a report whose row count is the number of lines read. *)
Lemma main_completes :
  fst (main sch argv w) = Ok tt
  /\ exit_status (fst (main sch argv w)) = 0
  /\ posts (log (snd (main sch argv w)))
     = posts (log w)
       ++ map (fun c => Post url (body c))
            (map task_lines (read_chunks argv lines))
  /\ exists evs t,
       log (snd (main sch argv w))
       = log w ++ Stdout MsgDividing :: evs
           ++ [Stdout (MsgTotalRows (len lines));
               Stdout (MsgTotalRequestTime t);
               Stdout (MsgWallTime (dispatch_time sch))].
Proof.
  destruct (main_run sch argv w lines url Hurl
              (get_endpoint_choices _ _ _ Hurl) Hfile Hworkers)
    as (results & evs & E & Hrows & Hposts & _).
  rewrite E. cbn [fst snd log exit_status]. repeat split.
  - rewrite posts_app. change (?x :: ?l) with ([x] ++ l).
    rewrite !posts_app, Hposts. cbn. now rewrite app_nil_r.
  - exists evs, (total (map snd results)).
    rewrite Hrows, total_len_concat, read_chunks_concat.
    unfold len. now rewrite length_map.
Qed.

End Runs.

(** ** Chunk sizes that are not positive *)

(** C4, as the specification words it, fails: with chunk size 0 the run
    raises nothing, sends the two lines of the file as one chunk and ends
    with exit status 0. *)
Lemma nonpositive_chunk_size_counterexample :
  fst (main (uniform (Reply 5 (Responded (Response 204 true ""))))
         (mkArgs "http://h:9" "data.lp" 0 1 "questdb" false)
         (world_of 0 (one_file "data.lp" ["a" ++ chr LF; "b" ++ chr LF])
            (Reply 0 (Failed ""))))
  = Ok tt /\
  exit_status
    (fst (main (uniform (Reply 5 (Responded (Response 204 true ""))))
            (mkArgs "http://h:9" "data.lp" 0 1 "questdb" false)
            (world_of 0 (one_file "data.lp" ["a" ++ chr LF; "b" ++ chr LF])
               (Reply 0 (Failed "")))))
  = 0 /\
  posts
    (log (snd (main (uniform (Reply 5 (Responded (Response 204 true ""))))
                 (mkArgs "http://h:9" "data.lp" 0 1 "questdb" false)
                 (world_of 0
                    (one_file "data.lp" ["a" ++ chr LF; "b" ++ chr LF])
                    (Reply 0 (Failed ""))))))
  = [Post "http://h:9/write" ("a" ++ chr LF ++ "b" ++ chr LF)].
Proof. repeat split. Qed.

(** C4 (amended): a chunk size [N <= 0] raises no configuration error. The
    reading loop never closes a chunk, so the lines of a non-empty file
    form one single chunk (an empty file gives none); with a known backend,
    a readable file and at least one worker that chunk is sent in one
    request and the run ends with exit status 0. *)
Theorem nonpositive_chunk_size_single_chunk (sch : Scheduler) (argv : Args)
  (w : World) (lines : list string) (url : string) :
  chunk_size argv <= 0 ->
  get_endpoint (host argv) (backend argv) = Ok url ->
  files w (file argv) = Some lines ->
  1 <= workers argv ->
  map task_lines (read_chunks argv lines)
  = match lines with
    | [] => []
    | _ :: _ => [map (prepare_line (omit_timestamp argv)) lines]
    end /\
  fst (main sch argv w) = Ok tt /\
  exit_status (fst (main sch argv w)) = 0 /\
  posts (log (snd (main sch argv w)))
  = (posts (log w)
     ++ match lines with
        | [] => []
        | _ :: _ =>
            [Post url (body (map (prepare_line (omit_timestamp argv)) lines))]
        end)%list.
Proof.
  intros HN Hurl Hfile HW.
  destruct (main_completes sch argv w lines url Hurl Hfile HW)
    as (Hok & Hexit & Hposts & _).
  pose proof (read_chunks_nonpositive argv lines HN) as Hq.
  repeat split; auto.
  rewrite Hposts, Hq. now destruct lines.
Qed.

Lemma nonpositive_chunk_size_single_chunk_witness :
  map task_lines
    (read_chunks (mkArgs "http://h:9" "data.lp" (-3) 1 "influxdb" true)
       ["a 1" ++ chr LF; "b 2" ++ chr LF; "c 3"])
  = [["a"; "b"; "c"]] /\
  exit_status
    (fst (main (uniform (Reply 5 (Failed "refused")))
            (mkArgs "http://h:9" "data.lp" (-3) 1 "influxdb" true)
            (world_of 0
               (one_file "data.lp" ["a 1" ++ chr LF; "b 2" ++ chr LF; "c 3"])
               (Reply 0 (Failed "")))))
  = 0.
Proof.
  destruct (nonpositive_chunk_size_single_chunk
              (uniform (Reply 5 (Failed "refused")))
              (mkArgs "http://h:9" "data.lp" (-3) 1 "influxdb" true)
              (world_of 0
                 (one_file "data.lp" ["a 1" ++ chr LF; "b 2" ++ chr LF; "c 3"])
                 (Reply 0 (Failed "")))
              ["a 1" ++ chr LF; "b 2" ++ chr LF; "c 3"]
              "http://h:9/api/v3/write_lp?db=sensors&precision=auto"
              ltac:(cbn; lia) eq_refl eq_refl ltac:(cbn; lia))
    as (Hq & _ & Hexit & _).
  split; [exact Hq | exact Hexit].
Defined.

(** ** Failed sends *)

(** C5, as the specification words it, fails: the pair returned for a send
    that raised is the pair returned for a send that succeeded with the
    same latency, so no failure status or error detail can be read off
    it. *)
Lemma send_result_status_counterexample :
  fst (send_chunk ["a"] "http://h:9" "questdb"
         (world_of 0 no_files (Reply 5 (Failed "refused"))))
  = Ok (1, 5) /\
  fst (send_chunk ["a"] "http://h:9" "questdb"
         (world_of 0 no_files (Reply 5 (Responded (Response 204 true "")))))
  = Ok (1, 5) /\
  ~ (exists failed : Z * Z -> bool,
       (forall r,
          fst (send_chunk ["a"] "http://h:9" "questdb"
                 (world_of 0 no_files (Reply 5 (Failed "refused"))))
          = Ok r -> failed r = true) /\
       (forall r,
          fst (send_chunk ["a"] "http://h:9" "questdb"
                 (world_of 0 no_files
                    (Reply 5 (Responded (Response 204 true "")))))
          = Ok r -> failed r = false)).
Proof.
  repeat split. intros (failed & Hf & Hs).
  specialize (Hf (1, 5) eq_refl). specialize (Hs (1, 5) eq_refl).
  congruence.
Qed.

(** C5 (amended): with a known backend, a request that raises a transport
    exception does not make [send_chunk] raise: it returns the pair of the
    chunk's line count and the measured latency, and writes the exception
    and the latency to stderr. A response that is not a success is logged
    with its body on stderr and gives the same kind of pair. The pair has
    no success flag and no error detail. No failure stops the run: all
    chunks are attempted and the report is printed. *)
Theorem send_chunk_contains_failures (chunk_lines : list string)
  (h b url : string) (w : World) :
  get_endpoint h b = Ok url ->
  (forall msg,
     outcome (wire w url (body chunk_lines)) = Failed msg ->
     send_chunk chunk_lines h b w
     = (Ok (len chunk_lines, latency (wire w url (body chunk_lines))),
        mkWorld (now w + latency (wire w url (body chunk_lines)))
          (files w) (wire w)
          (log w
           ++ [Post url (body chunk_lines);
               Stderr (MsgException (RequestException msg)
                         (latency (wire w url (body chunk_lines))))])%list)) /\
  (forall resp,
     outcome (wire w url (body chunk_lines)) = Responded resp ->
     ok resp = false ->
     send_chunk chunk_lines h b w
     = (Ok (len chunk_lines, latency (wire w url (body chunk_lines))),
        mkWorld (now w + latency (wire w url (body chunk_lines)))
          (files w) (wire w)
          (log w
           ++ [Post url (body chunk_lines);
               Stdout (MsgSent (len chunk_lines) (status_code resp)
                         (latency (wire w url (body chunk_lines))));
               Stderr (MsgError (text resp))])%list)) /\
  (forall sch argv w0 lines,
     host argv = h -> backend argv = b ->
     files w0 (file argv) = Some lines ->
     1 <= workers argv ->
     fst (main sch argv w0) = Ok tt /\
     posts (log (snd (main sch argv w0)))
     = (posts (log w0)
        ++ map (fun c => Post url (body c))
             (map task_lines (read_chunks argv lines)))%list /\
     exists evs t,
       log (snd (main sch argv w0))
       = (log w0 ++ Stdout MsgDividing :: evs
          ++ [Stdout (MsgTotalRows (len lines));
              Stdout (MsgTotalRequestTime t);
              Stdout (MsgWallTime (dispatch_time sch))])%list).
Proof.
  intros Hurl. repeat split.
  - intros msg Hout. rewrite (send_chunk_run _ _ _ _ _ Hurl).
    unfold progress. now rewrite Hout.
  - intros resp Hout Hok. rewrite (send_chunk_run _ _ _ _ _ Hurl).
    unfold progress. now rewrite Hout, Hok.
  - subst h b. now apply (main_completes sch argv w0 lines url).
  - subst h b. now apply (main_completes sch argv w0 lines url).
  - subst h b. now apply (main_completes sch argv w0 lines url).
Qed.

Lemma send_chunk_contains_failures_witness :
  send_chunk ["a"; "b"] "http://h:9" "questdb"
    (world_of 7 no_files (Reply 5 (Failed "refused")))
  = (Ok (2, 5),
     mkWorld 12 no_files (fun _ _ => Reply 5 (Failed "refused"))
       [Post "http://h:9/write" ("a" ++ chr LF ++ "b" ++ chr LF);
        Stderr (MsgException (RequestException "refused") 5)]) /\
  fst (main (uniform (Reply 5 (Failed "refused")))
         (mkArgs "http://h:9" "data.lp" 1 2 "questdb" false)
         (world_of 0 (one_file "data.lp" ["a" ++ chr LF; "b" ++ chr LF])
            (Reply 0 (Failed ""))))
  = Ok tt.
Proof.
  destruct (send_chunk_contains_failures ["a"; "b"] "http://h:9" "questdb"
              "http://h:9/write"
              (world_of 7 no_files (Reply 5 (Failed "refused"))) eq_refl)
    as (Hraise & _ & Hrun).
  split.
  - exact (Hraise "refused" eq_refl).
  - apply (Hrun (uniform (Reply 5 (Failed "refused")))
             (mkArgs "http://h:9" "data.lp" 1 2 "questdb" false)
             (world_of 0 (one_file "data.lp" ["a" ++ chr LF; "b" ++ chr LF])
                (Reply 0 (Failed "")))
             ["a" ++ chr LF; "b" ++ chr LF]);
      [reflexivity | reflexivity | reflexivity | cbn; lia].
Defined.

(** ** The reported row count *)

Lemma ten_lines_by_three (argv : Args) (lines : list string) :
  chunk_size argv = 3 -> len lines = 10 ->
  map len (map task_lines (read_chunks argv lines)) = [3; 3; 3; 1].
Proof.
  intros HN HL. unfold len in HL.
  do 10 (destruct lines as [|? lines]; [cbn in HL; lia|]).
  destruct lines; [|cbn [List.length] in HL; lia].
  unfold read_chunks. cbn [fold_left].
  repeat (rewrite read_step_eq, HN;
          cbn [app len List.length Z.of_nat Pos.of_succ_nat Pos.succ
               Z.eqb Pos.eqb]).
  reflexivity.
Qed.

(** C6: the total of the report is the sum of the row counts of the pairs;
    the row count of a pair is the number of lines of its chunk whether the
    send succeeded or not; so a run reports the number of lines read, and a
    file of 10 lines sent in chunks of 3 (sizes 3, 3, 3, 1) is reported as
    10 rows whatever the network does. *)
Theorem total_rows_counts_attempts :
  (forall results, fst (aggregate results) = total (map fst results)) /\
  (forall chunk_lines h b url w,
     get_endpoint h b = Ok url ->
     fst (send_chunk chunk_lines h b w)
     = Ok (len chunk_lines, latency (wire w url (body chunk_lines)))) /\
  (forall sch argv w lines url,
     get_endpoint (host argv) (backend argv) = Ok url ->
     files w (file argv) = Some lines ->
     1 <= workers argv ->
     exists evs t,
       log (snd (main sch argv w))
       = (log w ++ Stdout MsgDividing :: evs
          ++ [Stdout (MsgTotalRows (len lines));
              Stdout (MsgTotalRequestTime t);
              Stdout (MsgWallTime (dispatch_time sch))])%list) /\
  (forall sch argv w lines url,
     get_endpoint (host argv) (backend argv) = Ok url ->
     files w (file argv) = Some lines ->
     1 <= workers argv ->
     chunk_size argv = 3 ->
     len lines = 10 ->
     map len (map task_lines (read_chunks argv lines)) = [3; 3; 3; 1] /\
     exists evs t,
       log (snd (main sch argv w))
       = (log w ++ Stdout MsgDividing :: evs
          ++ [Stdout (MsgTotalRows 10);
              Stdout (MsgTotalRequestTime t);
              Stdout (MsgWallTime (dispatch_time sch))])%list).
Proof.
  repeat split.
  - intros results. now rewrite aggregate_total.
  - intros chunk_lines h b url w Hurl.
    now rewrite (send_chunk_run _ _ _ _ _ Hurl).
  - intros sch argv w lines url Hurl Hfile HW.
    now apply (main_completes sch argv w lines url).
  - now apply ten_lines_by_three.
  - match goal with H : len lines = 10 |- _ => rewrite <- H end.
    now apply (main_completes sch argv w lines url).
Qed.

Lemma total_rows_counts_attempts_witness :
  exists evs t,
    log (snd (main (uniform (Reply 5 (Failed "refused")))
                (mkArgs "http://h:9" "data.lp" 3 1 "questdb" false)
                (world_of 0
                   (one_file "data.lp"
                      ["1"; "2"; "3"; "4"; "5"; "6"; "7"; "8"; "9"; "10"])
                   (Reply 0 (Failed "")))))
    = (Stdout MsgDividing :: evs
       ++ [Stdout (MsgTotalRows 10);
           Stdout (MsgTotalRequestTime t);
           Stdout (MsgWallTime 0)])%list.
Proof.
  apply (proj2 (proj2 (proj2 total_rows_counts_attempts))
           (uniform (Reply 5 (Failed "refused")))
           (mkArgs "http://h:9" "data.lp" 3 1 "questdb" false)
           (world_of 0
              (one_file "data.lp"
                 ["1"; "2"; "3"; "4"; "5"; "6"; "7"; "8"; "9"; "10"])
              (Reply 0 (Failed "")))
           ["1"; "2"; "3"; "4"; "5"; "6"; "7"; "8"; "9"; "10"]
           "http://h:9/write");
    reflexivity || (cbn; lia).
Defined.

(** * Further properties *)

(** ** More on strings *)

Module StrMore.

Lemma length_append (s t : string) :
  String.length (s ++ t) = (String.length s + String.length t)%nat.
Proof. induction s as [|a s IH]; cbn; [reflexivity | now rewrite IH]. Qed.

Lemma replicate_add (c : ascii) (j k : nat) :
  replicate (j + k) c = replicate j c ++ replicate k c.
Proof. induction j as [|j IH]; cbn; [reflexivity | now rewrite IH]. Qed.

Lemma rstrip_replicate (c : ascii) (k : nat) : rstrip c (replicate k c) = "".
Proof.
  induction k as [|k IH]; cbn; [reflexivity|].
  now rewrite IH, Ascii.eqb_refl.
Qed.

Lemma rstrip_cons (c a : ascii) (r : string) :
  rstrip c (String a r)
  = match rstrip c r with
    | EmptyString => if Ascii.eqb a c then EmptyString else chr a
    | String _ _ as r' => String a r'
    end.
Proof. reflexivity. Qed.

Lemma rstrip_append_replicate (c : ascii) (s : string) (k : nat) :
  endswith c s = false -> rstrip c (s ++ replicate k c) = s.
Proof.
  induction s as [|a s IH]; intros H.
  - apply rstrip_replicate.
  - change (String a s ++ replicate k c)
      with (String a (s ++ replicate k c)).
    rewrite rstrip_cons. destruct s as [|b s].
    + cbn in H. cbn [append]. now rewrite rstrip_replicate, H.
    + now rewrite (IH H).
Qed.

Lemma rstrip_absorbs (c : ascii) (s : string) (k : nat) :
  rstrip c (s ++ replicate k c) = rstrip c s.
Proof.
  destruct (rstrip_decompose c s) as [j Hj].
  rewrite Hj at 1. rewrite append_assoc, <- replicate_add.
  apply rstrip_append_replicate, rstrip_not_endswith.
Qed.

Lemma endswith_append (c : ascii) (s t : string) :
  t <> "" -> endswith c (s ++ t) = endswith c t.
Proof.
  intros Ht. induction s as [|a s IH]; [reflexivity|].
  cbn [append endswith]. rewrite IH.
  destruct (s ++ t) eqn:E; [|reflexivity].
  destruct s; [cbn in E; congruence | discriminate].
Qed.

Lemma count_append (c : ascii) (s t : string) :
  count c (s ++ t) = (count c s + count c t)%nat.
Proof.
  induction s as [|a s IH]; cbn; [reflexivity|].
  rewrite IH. now destruct (Ascii.eqb a c).
Qed.

Lemma count_absent (c : ascii) (s : string) :
  contains c s = false -> count c s = 0%nat.
Proof.
  induction s as [|a s IH]; cbn; [reflexivity|].
  intros H. apply orb_false_iff in H as [-> Hs]. auto.
Qed.

(** Two strings cut at their first [c] agree piece by piece. *)
Lemma first_cut_unique (c : ascii) (l1 l2 r1 r2 : string) :
  contains c l1 = false -> contains c l2 = false ->
  l1 ++ String c r1 = l2 ++ String c r2 ->
  l1 = l2 /\ r1 = r2.
Proof.
  revert l2. induction l1 as [|a l1 IH]; intros [|b l2] H1 H2 E; cbn in *.
  - now injection E.
  - injection E as <- _. now rewrite Ascii.eqb_refl in H2.
  - injection E as -> _. now rewrite Ascii.eqb_refl in H1.
  - injection E as <- E.
    apply orb_false_iff in H1 as [_ H1], H2 as [_ H2].
    destruct (IH l2 H1 H2 E) as [-> ->]. auto.
Qed.

End StrMore.

Import StrMore.

(** ** More on [get_endpoint] *)

(** X1: trailing slashes on the host never change the endpoint, and a host
    made of slashes only (the empty host included) resolves to the bare
    path. *)
Theorem get_endpoint_ignores_trailing_slashes (h b : string) (k : nat) :
  get_endpoint (h ++ replicate k SLASH) b = get_endpoint h b /\
  get_endpoint (replicate k SLASH) "questdb" = Ok "/write" /\
  get_endpoint (replicate k SLASH) "influxdb"
  = Ok "/api/v3/write_lp?db=sensors&precision=auto".
Proof.
  unfold get_endpoint. rewrite rstrip_absorbs, rstrip_replicate. auto.
Qed.

(** ** More on the line transformation *)

(** X2: the lines the transformation leaves alone are exactly those without
    a space; on any other line it removes exactly one space and makes the
    line strictly shorter; it never lengthens a line. *)
Theorem drop_timestamp_fixed_points (line : string) :
  (drop_timestamp line = line <-> contains SPACE line = false) /\
  (String.length (drop_timestamp line) <= String.length line)%nat /\
  (contains SPACE line = true ->
   (String.length (drop_timestamp line) < String.length line)%nat /\
   count SPACE line = S (count SPACE (drop_timestamp line))).
Proof.
  destruct (drop_timestamp_cases line) as [[Hno Hid]|(tok & Htok & Hcut)].
  - rewrite Hid, Hno. split; [split; auto|]. split; [lia | discriminate].
  - assert (Hlen : String.length line
                   = (String.length (drop_timestamp line)
                      + S (String.length tok))%nat).
    { rewrite Hcut at 1. now rewrite length_append. }
    assert (Hsp : contains SPACE line = true).
    { rewrite Hcut, contains_append. cbn. now rewrite orb_true_r. }
    split; [split|split].
    + intros E. rewrite E in Hlen. lia.
    + rewrite Hsp. discriminate.
    + lia.
    + intros _. split; [lia|].
      rewrite Hcut at 1. rewrite count_append. cbn.
      rewrite (count_absent _ _ Htok). lia.
Qed.

Lemma drop_timestamp_fixed_points_witness :
  (String.length (drop_timestamp "m f=1 17") < String.length "m f=1 17")%nat /\
  count SPACE "m f=1 17" = S (count SPACE (drop_timestamp "m f=1 17")).
Proof.
  apply (proj2 (proj2 (drop_timestamp_fixed_points "m f=1 17"))).
  reflexivity.
Defined.

(** X3: the newline is stripped before the token is dropped, so a line
    read with its line terminator loses terminator and token together;
    without [--omit-timestamp] only the terminator goes. *)
Theorem prepare_line_strips_then_drops (pre tok : string) (k : nat) :
  contains SPACE tok = false ->
  endswith LF tok = false ->
  prepare_line true (pre ++ chr SPACE ++ tok ++ replicate k LF) = pre /\
  prepare_line false (pre ++ chr SPACE ++ tok ++ replicate k LF)
  = pre ++ chr SPACE ++ tok.
Proof.
  intros Hsp Hlf.
  assert (Hstrip : rstrip LF (pre ++ chr SPACE ++ tok ++ replicate k LF)
                   = pre ++ chr SPACE ++ tok).
  { replace (pre ++ chr SPACE ++ tok ++ replicate k LF)
      with ((pre ++ chr SPACE ++ tok) ++ replicate k LF)
      by (now rewrite !append_assoc).
    apply rstrip_append_replicate.
    rewrite endswith_append by discriminate.
    cbn. destruct tok; [reflexivity | exact Hlf]. }
  unfold prepare_line. rewrite Hstrip. split; [|reflexivity].
  now apply drop_timestamp_cut.
Qed.

Lemma prepare_line_strips_then_drops_witness :
  prepare_line true ("m f=1" ++ chr SPACE ++ "17" ++ replicate 1 LF) = "m f=1".
Proof.
  apply (prepare_line_strips_then_drops "m f=1" "17" 1); reflexivity.
Defined.

(** ** More on the reading loop *)

Section ChunkerMore.

Variable args : Args.

Local Open Scope list_scope.

Local Abbreviation prep := (prepare_line (omit_timestamp args)).
Local Abbreviation mk := (fun c : list string => (c, host args, backend args)).
Local Abbreviation run lines st := (fold_left (read_step args) lines st).

Lemma read_fold_nonempty (lines chunk : list string) (done : list Task) :
  Forall (fun t => task_lines t <> []) done ->
  Forall (fun t => task_lines t <> []) (snd (run lines (chunk, done))).
Proof.
  revert chunk done. induction lines as [|l lines IH]; intros chunk done Hd.
  - exact Hd.
  - cbn [fold_left]. rewrite read_step_eq.
    destruct (len (chunk ++ [prep l]) =? chunk_size args)%Z; apply IH; auto.
    apply Forall_app. split; [exact Hd|]. constructor; [|constructor].
    unfold task_lines. cbn. now destruct chunk.
Qed.

(** The chunks already closed do not influence what the loop does next. *)
Lemma read_fold_done (lines chunk : list string) (done : list Task) :
  run lines (chunk, done)
  = (fst (run lines (chunk, [])), done ++ snd (run lines (chunk, []))).
Proof.
  revert chunk done. induction lines as [|l lines IH]; intros chunk done.
  - cbn. now rewrite app_nil_r.
  - cbn [fold_left]. rewrite !read_step_eq.
    destruct (len (chunk ++ [prep l]) =? chunk_size args)%Z.
    + rewrite (IH [] (done ++ _)), (IH [] ([] ++ _)).
      cbn [fst snd app]. now rewrite <- app_assoc.
    + apply IH.
Qed.

End ChunkerMore.

Lemma read_chunks_nonempty (args : Args) (lines : list string) :
  Forall (fun c => c <> []) (map task_lines (read_chunks args lines)).
Proof.
  apply Forall_map. rewrite read_chunks_eq.
  pose proof (read_fold_nonempty args lines [] [] (Forall_nil _)) as Hd.
  destruct (fst (fold_left (read_step args) lines ([], []))) eqn:E;
    [exact Hd|].
  apply Forall_app. split; [exact Hd|]. constructor; [|constructor].
  discriminate.
Qed.

(** X4: no queued chunk is empty, whatever the chunk size; with a positive
    chunk size [N] every chunk has between 1 and [N] lines. *)
Theorem read_chunks_sizes (args : Args) (lines : list string) :
  Forall (fun c => c <> []) (map task_lines (read_chunks args lines)) /\
  (0 < chunk_size args ->
   Forall (fun c => 1 <= len c <= chunk_size args)
     (map task_lines (read_chunks args lines))).
Proof.
  split.
  - apply read_chunks_nonempty.
  - intros HN.
    assert (Hn : chunk_size args = Z.of_nat (Z.to_nat (chunk_size args)))
      by lia.
    destruct (read_chunks_shape args lines _ Hn ltac:(lia))
      as (full & rest & -> & Hfull & _ & Hr).
    pose proof (Nat.mod_upper_bound (List.length lines)
                  (Z.to_nat (chunk_size args)) ltac:(lia)) as Hb.
    apply Forall_app. split.
    + eapply Forall_impl; [|exact Hfull]. cbn. intros c Hc. unfold len. lia.
    + destruct rest as [|l rest]; constructor; [|constructor].
      unfold len. cbn [List.length] in *. lia.
Qed.

Lemma read_chunks_sizes_witness :
  Forall (fun c => 1 <= len c <= 2)
    (map task_lines
       (read_chunks (mkArgs "http://h:9" "f" 2 1 "questdb" false)
          ["a"; "b"; "c"])).
Proof.
  apply (proj2 (read_chunks_sizes (mkArgs "http://h:9" "f" 2 1 "questdb" false)
                  ["a"; "b"; "c"])).
  reflexivity.
Defined.

(** X5: a file with at least one line and at most [N] lines is sent as one
    chunk holding all its lines; in particular a file of exactly [N] lines
    gives one chunk and no empty second one. *)
Theorem read_chunks_short_file (args : Args) (lines : list string) :
  0 < len lines <= chunk_size args ->
  map task_lines (read_chunks args lines)
  = [map (prepare_line (omit_timestamp args)) lines].
Proof.
  intros [HL HN]. unfold len in HL, HN.
  assert (Hn : chunk_size args = Z.of_nat (Z.to_nat (chunk_size args)))
    by lia.
  pose proof (read_chunks_concat args lines) as Hcat.
  destruct (read_chunks_shape args lines _ Hn ltac:(lia))
    as (full & rest & Hs & Hfull & Hq & Hr).
  rewrite Hs in *. clear Hs.
  destruct (Nat.eq_dec (List.length lines) (Z.to_nat (chunk_size args)))
    as [E|E].
  - rewrite E, Nat.div_same in Hq by lia.
    rewrite E, Nat.Div0.mod_same in Hr.
    destruct rest; [|discriminate].
    destruct full as [|c [|c' full]]; try discriminate.
    cbn in Hcat. rewrite app_nil_r in Hcat. now subst c.
  - rewrite Nat.div_small in Hq by lia.
    rewrite Nat.mod_small in Hr by lia.
    destruct full; [|discriminate].
    destruct rest as [|l rest]; [cbn in Hr; lia|].
    cbn in Hcat. rewrite app_nil_r in Hcat. now rewrite Hcat.
Qed.

Lemma read_chunks_short_file_witness :
  map task_lines
    (read_chunks (mkArgs "http://h:9" "f" 3 1 "questdb" true)
       ["a 1"; "b 2"; "c 3"])
  = [["a"; "b"; "c"]].
Proof.
  apply (read_chunks_short_file (mkArgs "http://h:9" "f" 3 1 "questdb" true)
           ["a 1"; "b 2"; "c 3"]).
  cbn. lia.
Defined.

(** X6: chunking composes at chunk boundaries: when the number of lines of
    a first part is a multiple of the positive chunk size, the queue of the
    two parts together is the queue of the first followed by the queue of
    the second. *)
Theorem read_chunks_app (args : Args) (lines1 lines2 : list string) :
  0 < chunk_size args ->
  len lines1 mod chunk_size args = 0 ->
  read_chunks args (lines1 ++ lines2)%list
  = (read_chunks args lines1 ++ read_chunks args lines2)%list.
Proof.
  intros HN Hmod.
  assert (Hn : chunk_size args = Z.of_nat (Z.to_nat (chunk_size args)))
    by lia.
  destruct (read_fold_count args _ lines1 [] [] Hn ltac:(cbn; lia)
              (Forall_nil _)) as (_ & _ & H3).
  assert (Hz : (List.length lines1 mod Z.to_nat (chunk_size args) = 0)%nat).
  { apply Nat2Z.inj. rewrite Nat2Z.inj_mod, <- Hn. exact Hmod. }
  cbn [List.length Nat.add] in H3. rewrite Hz in H3.
  rewrite (read_chunks_eq args lines1), (read_chunks_eq args lines2).
  rewrite read_chunks_eq, fold_left_app.
  destruct (fold_left (read_step args) lines1 ([], [])) as [chunk1 done1].
  cbn [fst snd] in *. destruct chunk1; [|discriminate].
  rewrite (read_fold_done args lines2 [] done1). cbn [fst snd].
  destruct (fst (fold_left (read_step args) lines2 ([], [])));
    [reflexivity | now rewrite app_assoc].
Qed.

Lemma read_chunks_app_witness :
  read_chunks (mkArgs "http://h:9" "f" 2 1 "questdb" false)
    ["a"; "b"; "c"; "d"; "e"]
  = (read_chunks (mkArgs "http://h:9" "f" 2 1 "questdb" false)
       ["a"; "b"; "c"; "d"]
     ++ read_chunks (mkArgs "http://h:9" "f" 2 1 "questdb" false) ["e"])%list.
Proof.
  apply (read_chunks_app (mkArgs "http://h:9" "f" 2 1 "questdb" false)
           ["a"; "b"; "c"; "d"] ["e"]);
    reflexivity.
Defined.

Section OmitCommutes.

Variable args : Args.

Local Open Scope list_scope.

Local Abbreviation dropped :=
  (fun t : Task =>
     (map drop_timestamp (task_lines t), snd (fst t), snd t) : Task).

Lemma read_fold_omit (lines chunk : list string) (done : list Task) :
  fold_left (read_step (with_omit args true)) lines
    (map drop_timestamp chunk, map dropped done)
  = (map drop_timestamp
       (fst (fold_left (read_step (with_omit args false)) lines
               (chunk, done))),
     map dropped
       (snd (fold_left (read_step (with_omit args false)) lines
               (chunk, done)))).
Proof.
  revert chunk done. induction lines as [|l lines IH]; intros chunk done.
  - reflexivity.
  - cbn [fold_left]. rewrite !read_step_eq.
    cbn [with_omit omit_timestamp chunk_size host backend].
    assert (Hlen : len (map drop_timestamp chunk ++ [prepare_line true l])
                   = len (chunk ++ [prepare_line false l])).
    { unfold len. now rewrite !length_app, length_map. }
    rewrite Hlen.
    destruct (len (chunk ++ [prepare_line false l]) =? chunk_size args)%Z.
    + rewrite <- IH. rewrite map_app. cbn [map task_lines fst snd].
      rewrite map_app. reflexivity.
    + rewrite <- IH. rewrite map_app. reflexivity.
Qed.

End OmitCommutes.

(** X7: [--omit-timestamp] does not move chunk boundaries: the queue built
    with the option is the queue built without it, with the token dropped
    from every line. *)
Theorem read_chunks_omit_commutes (args : Args) (lines : list string) :
  map task_lines (read_chunks (with_omit args true) lines)
  = map (map drop_timestamp)
      (map task_lines (read_chunks (with_omit args false) lines)).
Proof.
  rewrite !read_chunks_eq.
  pose proof (read_fold_omit args lines [] []) as H. cbn [map] in H.
  rewrite H. cbn [fst snd with_omit host backend].
  destruct (fold_left (read_step (with_omit args false)) lines ([], []))
    as [[|c chunk] done]; cbn [fst snd map].
  - rewrite !map_map. reflexivity.
  - rewrite !map_app, !map_map. reflexivity.
Qed.

(** ** More on the request body *)

Lemma cat_app (a b : list string) : cat (a ++ b)%list = cat a ++ cat b.
Proof.
  induction a as [|x a IH]; cbn; [reflexivity|].
  fold (cat (a ++ b)%list). fold (cat a). now rewrite IH, append_assoc.
Qed.

Lemma terminated_cat (ls : list string) :
  fold_right (fun l acc => l ++ chr LF ++ acc) "" ls
  = cat (map (fun l => l ++ chr LF) ls).
Proof.
  induction ls as [|l ls IH]; [reflexivity|].
  cbn [fold_right map cat]. fold (cat (map (fun l => l ++ chr LF) ls)).
  now rewrite IH, append_assoc.
Qed.

Lemma body_cat (c : list string) :
  c <> [] -> body c = cat (map (fun l => l ++ chr LF) c).
Proof.
  intros H. unfold body. now rewrite join_terminated, terminated_cat.
Qed.

Lemma count_cat_terminated (ls : list string) :
  Forall (fun l => contains LF l = false) ls ->
  count LF (cat (map (fun l => l ++ chr LF) ls)) = List.length ls.
Proof.
  induction 1 as [|l ls Hl _ IH]; [reflexivity|].
  cbn [map cat fold_right List.length].
  fold (cat (map (fun l => l ++ chr LF) ls)).
  rewrite !count_append, IH, (count_absent _ _ Hl). reflexivity.
Qed.

Lemma cat_terminated_inj (l1 l2 : list string) :
  Forall (fun l => contains LF l = false) l1 ->
  Forall (fun l => contains LF l = false) l2 ->
  cat (map (fun l => l ++ chr LF) l1) = cat (map (fun l => l ++ chr LF) l2) ->
  l1 = l2.
Proof.
  intros H1. revert l2.
  induction H1 as [|x l1 Hx _ IH]; intros l2 H2 E.
  - destruct H2 as [|y l2 _ _]; [reflexivity|].
    cbn in E. destruct y; discriminate.
  - destruct H2 as [|y l2 Hy H2].
    + cbn in E. destruct x; discriminate.
    + cbn [map cat fold_right] in E.
      fold (cat (map (fun l => l ++ chr LF) l1)) in E.
      fold (cat (map (fun l => l ++ chr LF) l2)) in E.
      rewrite !append_assoc in E. cbn [chr append] in E.
      destruct (first_cut_unique _ _ _ _ _ Hx Hy E) as [-> E'].
      now rewrite (IH l2 H2 E').
Qed.

(** X8: for a non-empty chunk whose lines hold no newline, the body has as
    many newlines as the chunk has lines, and it determines the chunk: two
    such chunks with the same body are the same. An empty chunk would send
    the body of a chunk made of one blank line. *)
Theorem body_determines_chunk (c1 c2 : list string) :
  c1 <> [] -> c2 <> [] ->
  Forall (fun l => contains LF l = false) c1 ->
  Forall (fun l => contains LF l = false) c2 ->
  count LF (body c1) = List.length c1 /\
  (body c1 = body c2 -> c1 = c2) /\
  body [] = body [""].
Proof.
  intros N1 N2 H1 H2. rewrite (body_cat _ N1), (body_cat _ N2).
  split; [now apply count_cat_terminated|].
  split; [now apply cat_terminated_inj | reflexivity].
Qed.

Lemma body_determines_chunk_witness :
  count LF (body ["m f=1"; "m f=2"]) = 2%nat.
Proof.
  apply (body_determines_chunk ["m f=1"; "m f=2"] ["x"]);
    try discriminate; repeat constructor.
Defined.

(** ** What a run puts on the wire *)

Lemma request_bodies_app (a b : list event) :
  request_bodies (a ++ b)%list
  = (request_bodies a ++ request_bodies b)%list.
Proof. unfold request_bodies. now rewrite posts_app, map_app. Qed.

Lemma request_bodies_posts (evs : list event) :
  request_bodies (posts evs) = request_bodies evs.
Proof.
  unfold request_bodies, posts. f_equal.
  induction evs as [|ev evs IH]; [reflexivity|].
  cbn. destruct (is_post ev) eqn:E; cbn; rewrite ?E, IH; reflexivity.
Qed.

Lemma cat_bodies (chunks : list (list string)) :
  Forall (fun c => c <> []) chunks ->
  cat (map body chunks)
  = cat (map (fun l => l ++ chr LF) (List.concat chunks)).
Proof.
  induction 1 as [|c chunks Hc _ IH]; [reflexivity|].
  cbn [map List.concat cat fold_right]. fold (cat (map body chunks)).
  now rewrite map_app, cat_app, IH, (body_cat _ Hc).
Qed.

Lemma drop_timestamp_keeps_absent (c : ascii) (line : string) :
  contains c line = false -> contains c (drop_timestamp line) = false.
Proof.
  intros H.
  destruct (drop_timestamp_cases line) as [[_ ->]|(tok & _ & Hcut)];
    [exact H|].
  rewrite Hcut, contains_append in H. now apply orb_false_iff in H.
Qed.

Section Wire.

Variables (sch : Scheduler) (argv : Args) (w : World).
Variables (lines : list string) (url : string).
Hypothesis Hurl : get_endpoint (host argv) (backend argv) = Ok url.
Hypothesis Hfile : files w (file argv) = Some lines.
Hypothesis Hworkers : 1 <= workers argv.

Lemma main_bodies :
  cat (request_bodies (log (snd (main sch argv w))))
  = cat (request_bodies (log w))
    ++ cat (map (fun l => l ++ chr LF)
              (map (prepare_line (omit_timestamp argv)) lines)).
Proof.
  destruct (main_completes sch argv w lines url Hurl Hfile Hworkers)
    as (_ & _ & Hposts & _).
  rewrite <- request_bodies_posts, Hposts, request_bodies_app.
  rewrite request_bodies_posts, cat_app. f_equal.
  unfold request_bodies.
  assert (E : forall cs,
             map post_body (posts (map (fun c => Post url (body c)) cs))
             = map body cs).
  { induction cs as [|c cs IH]; [reflexivity|]. cbn. now rewrite <- IH. }
  rewrite E, cat_bodies by apply read_chunks_nonempty.
  now rewrite read_chunks_concat.
Qed.

End Wire.

Lemma read_chunks_count (args : Args) (lines : list string) :
  0 < chunk_size args ->
  len (read_chunks args lines) = ceil_div (len lines) (chunk_size args).
Proof.
  intros HN.
  assert (Hn : chunk_size args = Z.of_nat (Z.to_nat (chunk_size args)))
    by lia.
  destruct (read_chunks_shape args lines _ Hn ltac:(lia))
    as (full & rest & Hs & _ & Hq & Hr).
  assert (HL : 0 <= len lines) by (unfold len; lia).
  rewrite (ceil_div_split _ _ HN HL).
  unfold len in *. rewrite <- (length_map task_lines), Hs, length_app, Hq.
  rewrite Hn at 2 3. rewrite <- Nat2Z.inj_div, <- Nat2Z.inj_mod, <- Hr.
  destruct rest; cbn [List.length]; cbn; lia.
Qed.

(** X9: the bodies of the requests of a run, put end to end in queue
    order, are the lines of the file, each stripped (and cut, with
    [--omit-timestamp]) and followed by one newline: no line is lost,
    repeated or reordered on the way, whatever the chunk size. With a
    positive chunk size the run makes [ceil (L / N)] requests. *)
Theorem main_sends_file_content (sch : Scheduler) (argv : Args) (w : World)
  (lines : list string) (url : string) :
  get_endpoint (host argv) (backend argv) = Ok url ->
  files w (file argv) = Some lines ->
  1 <= workers argv ->
  cat (request_bodies (log (snd (main sch argv w))))
  = cat (request_bodies (log w))
    ++ cat (map (fun l => l ++ chr LF)
              (map (prepare_line (omit_timestamp argv)) lines)) /\
  (0 < chunk_size argv ->
   len (posts (log (snd (main sch argv w))))
   = len (posts (log w)) + ceil_div (len lines) (chunk_size argv)).
Proof.
  intros Hurl Hfile HW. split.
  - now apply (main_bodies sch argv w lines url).
  - intros HN.
    destruct (main_completes sch argv w lines url Hurl Hfile HW)
      as (_ & _ & Hposts & _).
    rewrite Hposts, <- (read_chunks_count argv lines HN).
    unfold len. rewrite length_app, !length_map. lia.
Qed.

Lemma main_sends_file_content_witness :
  cat (request_bodies
         (log (snd (main (uniform (Reply 5 (Failed "refused")))
                      (mkArgs "http://h:9" "data.lp" 2 3 "influxdb" true)
                      (world_of 0
                         (one_file "data.lp"
                            ["a 1" ++ chr LF; "b 2" ++ chr LF; "c 3"])
                         (Reply 0 (Failed "")))))))
  = "a" ++ chr LF ++ "b" ++ chr LF ++ "c" ++ chr LF.
Proof.
  apply (main_sends_file_content (uniform (Reply 5 (Failed "refused")))
           (mkArgs "http://h:9" "data.lp" 2 3 "influxdb" true)
           (world_of 0
              (one_file "data.lp" ["a 1" ++ chr LF; "b 2" ++ chr LF; "c 3"])
              (Reply 0 (Failed "")))
           ["a 1" ++ chr LF; "b 2" ++ chr LF; "c 3"]
           "http://h:9/api/v3/write_lp?db=sensors&precision=auto");
    reflexivity || (cbn; lia).
Defined.

(** X10: when the only newlines of the lines read are trailing ones, as for
    lines coming from a file iterator, the number of rows of the report is
    the number of newline-terminated rows put on the wire. *)
Theorem reported_rows_are_wire_rows (sch : Scheduler) (argv : Args)
  (w : World) (lines : list string) (url : string) :
  get_endpoint (host argv) (backend argv) = Ok url ->
  files w (file argv) = Some lines ->
  1 <= workers argv ->
  Forall (fun l => contains LF (rstrip LF l) = false) lines ->
  Z.of_nat (count LF (cat (request_bodies (log (snd (main sch argv w))))))
  = Z.of_nat (count LF (cat (request_bodies (log w)))) + len lines /\
  In (Stdout (MsgTotalRows (len lines))) (log (snd (main sch argv w))).
Proof.
  intros Hurl Hfile HW Hlf. split.
  - rewrite (main_bodies sch argv w lines url Hurl Hfile HW), count_append.
    rewrite count_cat_terminated.
    + unfold len. rewrite length_map. lia.
    + apply Forall_map. eapply Forall_impl; [|exact Hlf].
      cbn. intros l Hl. unfold prepare_line.
      destruct (omit_timestamp argv); [|exact Hl].
      now apply drop_timestamp_keeps_absent.
  - destruct (main_completes sch argv w lines url Hurl Hfile HW)
      as (_ & _ & _ & evs & t & ->).
    apply in_or_app. right. right. apply in_or_app. right. now left.
Qed.

Lemma reported_rows_are_wire_rows_witness :
  Z.of_nat
    (count LF
       (cat (request_bodies
               (log (snd (main (uniform (Reply 5 (Failed "refused")))
                            (mkArgs "http://h:9" "data.lp" 2 3 "questdb" false)
                            (world_of 0
                               (one_file "data.lp"
                                  ["a 1" ++ chr LF; "b 2" ++ chr LF; "c 3"])
                               (Reply 0 (Failed "")))))))))
  = 3.
Proof.
  apply (reported_rows_are_wire_rows (uniform (Reply 5 (Failed "refused")))
           (mkArgs "http://h:9" "data.lp" 2 3 "questdb" false)
           (world_of 0
              (one_file "data.lp" ["a 1" ++ chr LF; "b 2" ++ chr LF; "c 3"])
              (Reply 0 (Failed "")))
           ["a 1" ++ chr LF; "b 2" ++ chr LF; "c 3"]
           "http://h:9/write");
    try reflexivity; [cbn; lia | repeat constructor].
Defined.

(** ** How a run ends *)

(** With fewer than one worker the pool cannot be created: the file has
    been read, nothing is sent, and [ValueError] leaves [main]. *)
Lemma main_no_workers (sch : Scheduler) (argv : Args) (w : World)
  (lines : list string) :
  existsb (String.eqb (backend argv)) ["questdb"; "influxdb"] = true ->
  files w (file argv) = Some lines ->
  workers argv < 1 ->
  main sch argv w
  = (Raise (ValueError "Number of processes must be at least 1"),
     mkWorld (now w) (files w) (wire w) (log w ++ [Stdout MsgDividing])%list).
Proof.
  intros Hb Hf HW. unfold main.
  rewrite (bind_ok _ _ _ _ _ (parse_args_known argv w Hb)).
  unfold bind, print, emit, try_except, open_lines, time_time, with_pool,
    ret, raise.
  cbn [files now wire log]. rewrite Hf.
  destruct (Z.ltb_spec (workers argv) 1) as [_|Hge]; [reflexivity | lia].
Qed.

(** X11: when the input file cannot be opened the run stops with exit
    status 1 after printing the read error; no request is made. *)
Theorem unreadable_file_stops_run (sch : Scheduler) (argv : Args)
  (w : World) :
  existsb (String.eqb (backend argv)) ["questdb"; "influxdb"] = true ->
  files w (file argv) = None ->
  main sch argv w
  = (Raise (SystemExit 1),
     mkWorld (now w) (files w) (wire w)
       (log w ++ [Stdout MsgDividing;
                  Stderr (MsgReadError (OSError (file argv)))])%list) /\
  exit_status (fst (main sch argv w)) = 1 /\
  posts (log (snd (main sch argv w))) = posts (log w).
Proof.
  intros Hb Hf. rewrite (main_unreadable sch argv w Hb Hf).
  repeat split. cbn [snd log]. rewrite posts_app. cbn. apply app_nil_r.
Qed.

Lemma unreadable_file_stops_run_witness :
  exit_status
    (fst (main (uniform (Reply 5 (Responded (Response 204 true ""))))
            (mkArgs "http://h:9" "missing.lp" 3 1 "questdb" false)
            (world_of 0 (one_file "data.lp" ["a"]) (Reply 0 (Failed "")))))
  = 1.
Proof.
  apply (unreadable_file_stops_run
           (uniform (Reply 5 (Responded (Response 204 true ""))))
           (mkArgs "http://h:9" "missing.lp" 3 1 "questdb" false)
           (world_of 0 (one_file "data.lp" ["a"]) (Reply 0 (Failed ""))));
    reflexivity.
Defined.

(** X12: a worker count below 1 is not rejected when the options are
    parsed: the file is read and chunked first, then creating the pool
    raises [ValueError], which nothing catches; the run ends with exit
    status 1 and no request has been made. *)
Theorem no_workers_crashes_after_reading (sch : Scheduler) (argv : Args)
  (w : World) (lines : list string) :
  existsb (String.eqb (backend argv)) ["questdb"; "influxdb"] = true ->
  files w (file argv) = Some lines ->
  workers argv < 1 ->
  main sch argv w
  = (Raise (ValueError "Number of processes must be at least 1"),
     mkWorld (now w) (files w) (wire w) (log w ++ [Stdout MsgDividing])%list) /\
  exit_status (fst (main sch argv w)) = 1 /\
  posts (log (snd (main sch argv w))) = posts (log w).
Proof.
  intros Hb Hf HW. rewrite (main_no_workers sch argv w lines Hb Hf HW).
  repeat split. cbn [snd log]. rewrite posts_app. cbn. apply app_nil_r.
Qed.

Lemma no_workers_crashes_after_reading_witness :
  exit_status
    (fst (main (uniform (Reply 5 (Responded (Response 204 true ""))))
            (mkArgs "http://h:9" "data.lp" 3 0 "questdb" false)
            (world_of 0 (one_file "data.lp" ["a"]) (Reply 0 (Failed "")))))
  = 1.
Proof.
  apply (no_workers_crashes_after_reading
           (uniform (Reply 5 (Responded (Response 204 true ""))))
           (mkArgs "http://h:9" "data.lp" 3 0 "questdb" false)
           (world_of 0 (one_file "data.lp" ["a"]) (Reply 0 (Failed "")))
           ["a"]);
    reflexivity.
Defined.

(** ** More on the report *)

Lemma total_permutation (l l' : list Z) :
  Permutation l l' -> total l = total l'.
Proof.
  induction 1 as [|x l l' _ IH|x y l|l l' l'' _ IH1 _ IH2]; cbn.
  - reflexivity.
  - fold (total l) (total l'). now rewrite IH.
  - lia.
  - congruence.
Qed.

(** X14: the row count of the report does not depend on the order in which
    the pairs are accumulated. *)
Theorem total_rows_order_independent (results results' : list (Z * Z)) :
  Permutation results results' ->
  fst (aggregate results) = fst (aggregate results').
Proof.
  intros H. rewrite !aggregate_total. cbn [fst].
  apply total_permutation. now apply Permutation_map.
Qed.

Lemma total_rows_order_independent_witness :
  fst (aggregate [(3, 10); (1, 7); (3, 2)])
  = fst (aggregate [(1, 7); (3, 2); (3, 10)]).
Proof.
  apply (total_rows_order_independent
           [(3, 10); (1, 7); (3, 2)] [(1, 7); (3, 2); (3, 10)]).
  apply (Permutation_cons_app [(1, 7); (3, 2)] [] (3, 10)).
  apply Permutation_refl.
Defined.

Lemma results_by_position {A B} (f : nat -> A -> B) (xs : list A) :
  forall (rs : list B) (i : nat),
    List.length rs = List.length xs ->
    (forall j x,
       nth_error xs j = Some x -> nth_error rs j = Some (f (i + j)%nat x)) ->
    rs = map (fun jx => f (fst jx) (snd jx))
           (combine (seq i (List.length xs)) xs).
Proof.
  induction xs as [|x xs IH]; intros rs i Hlen Hnth.
  - now destruct rs.
  - destruct rs as [|r rs]; [discriminate|].
    cbn [List.length seq combine map fst snd]. f_equal.
    + specialize (Hnth 0%nat x eq_refl). cbn in Hnth.
      rewrite Nat.add_0_r in Hnth. congruence.
    + apply IH; [cbn in Hlen; lia|].
      intros j y Hy. specialize (Hnth (S j) y Hy). cbn in Hnth.
      now rewrite Nat.add_succ_r in Hnth.
Qed.

(** X15: the request time of the report is the sum of the latencies of the
    requests, one per queued chunk; it is not the wall time, which is
    measured around the dispatch on the parent's clock. *)
Theorem request_time_is_sum_of_latencies (sch : Scheduler) (argv : Args)
  (w : World) (lines : list string) (url : string) :
  get_endpoint (host argv) (backend argv) = Ok url ->
  files w (file argv) = Some lines ->
  1 <= workers argv ->
  exists evs,
    log (snd (main sch argv w))
    = (log w ++ Stdout MsgDividing :: evs
       ++ [Stdout (MsgTotalRows (len lines));
           Stdout (MsgTotalRequestTime
                     (total (latencies sch url
                               (map task_lines (read_chunks argv lines)))));
           Stdout (MsgWallTime (dispatch_time sch))])%list.
Proof.
  intros Hurl Hfile HW.
  destruct (main_run sch argv w lines url Hurl
              (get_endpoint_choices _ _ _ Hurl) Hfile HW)
    as (results & evs & E & Hrows & _ & Hnth).
  exists evs. rewrite E. cbn [snd log].
  assert (Hlen : List.length results
                 = List.length (map task_lines (read_chunks argv lines))).
  { rewrite <- (length_map fst results), Hrows. apply length_map. }
  rewrite (results_by_position
             (fun j c => (len c, latency (task_wire sch j url (body c))))
             _ results 0 Hlen Hnth) at 2.
  rewrite Hrows, total_len_concat, read_chunks_concat, map_map.
  unfold len at 1. rewrite length_map. reflexivity.
Qed.

Lemma request_time_is_sum_of_latencies_witness :
  exists evs,
    log (snd (main (mkScheduler (fun _ => 0)
                      (fun j _ _ => Reply (Z.of_nat j + 4) (Failed "refused"))
                      3)
                (mkArgs "http://h:9" "data.lp" 1 2 "questdb" false)
                (world_of 0 (one_file "data.lp" ["a"; "b"; "c"])
                   (Reply 0 (Failed "")))))
    = (Stdout MsgDividing :: evs
       ++ [Stdout (MsgTotalRows 3);
           Stdout (MsgTotalRequestTime 15);
           Stdout (MsgWallTime 3)])%list.
Proof.
  apply (request_time_is_sum_of_latencies
           (mkScheduler (fun _ => 0)
              (fun j _ _ => Reply (Z.of_nat j + 4) (Failed "refused")) 3)
           (mkArgs "http://h:9" "data.lp" 1 2 "questdb" false)
           (world_of 0 (one_file "data.lp" ["a"; "b"; "c"])
              (Reply 0 (Failed "")))
           ["a"; "b"; "c"] "http://h:9/write");
    reflexivity || (cbn; lia).
Defined.

(** X16: an empty file gives a run without any request: the queue is
    empty, the pool has nothing to do, and the report shows 0 rows and a
    request time of 0. *)
Theorem empty_file_run (sch : Scheduler) (argv : Args) (w : World) :
  existsb (String.eqb (backend argv)) ["questdb"; "influxdb"] = true ->
  files w (file argv) = Some [] ->
  1 <= workers argv ->
  main sch argv w
  = (Ok tt,
     mkWorld (now w + dispatch_time sch) (files w) (wire w)
       (log w
        ++ [Stdout MsgDividing;
            Stdout (MsgTotalRows 0);
            Stdout (MsgTotalRequestTime 0);
            Stdout (MsgWallTime (dispatch_time sch))])%list).
Proof.
  intros Hb Hf HW. unfold main.
  rewrite (bind_ok _ _ _ _ _ (parse_args_known argv w Hb)).
  unfold bind, print, emit, try_except, open_lines, time_time, with_pool,
    pool_map, ret.
  cbn [files now wire log]. rewrite Hf.
  destruct (Z.ltb_spec (workers argv) 1) as [Hlt|_]; [lia|].
  cbn. rewrite <- !app_assoc. cbn [app]. repeat f_equal. lia.
Qed.

Lemma empty_file_run_witness :
  posts (log (snd (main (uniform (Reply 5 (Failed "refused")))
                     (mkArgs "http://h:9" "data.lp" 3 2 "questdb" false)
                     (world_of 0 (one_file "data.lp" [])
                        (Reply 0 (Failed ""))))))
  = [].
Proof.
  rewrite (empty_file_run (uniform (Reply 5 (Failed "refused")))
             (mkArgs "http://h:9" "data.lp" 3 2 "questdb" false)
             (world_of 0 (one_file "data.lp" []) (Reply 0 (Failed "")))
             eq_refl eq_refl ltac:(cbn; lia)).
  reflexivity.
Defined.

(** ** Hosts and endpoints *)

Lemma append_cancel_r (s1 s2 t : string) : s1 ++ t = s2 ++ t -> s1 = s2.
Proof.
  revert s2. induction s1 as [|a s1 IH]; intros [|b s2] E.
  - reflexivity.
  - apply (f_equal String.length) in E. cbn in E.
    rewrite length_append in E. lia.
  - apply (f_equal String.length) in E. cbn in E.
    rewrite length_append in E. lia.
  - cbn in E. injection E as -> E. now rewrite (IH s2 E).
Qed.

(** X17: for a known backend two hosts resolve to the same endpoint exactly
    when they are the same up to trailing slashes. *)
Theorem get_endpoint_same_iff (h1 h2 b : string) :
  existsb (String.eqb b) ["questdb"; "influxdb"] = true ->
  (get_endpoint h1 b = get_endpoint h2 b
   <-> rstrip SLASH h1 = rstrip SLASH h2).
Proof.
  intros Hb. unfold get_endpoint. cbn in Hb.
  destruct (b =? "questdb")%string.
  - split; [|now intros ->]. intros [= E]. exact (append_cancel_r _ _ _ E).
  - destruct (b =? "influxdb")%string; [|discriminate].
    split; [|now intros ->]. intros [= E]. exact (append_cancel_r _ _ _ E).
Qed.

Lemma get_endpoint_same_iff_witness :
  get_endpoint "http://h:9//" "influxdb" = get_endpoint "http://h:9" "influxdb".
Proof.
  apply (get_endpoint_same_iff "http://h:9//" "http://h:9" "influxdb");
    reflexivity.
Defined.
